(** * MA-BE: the request handlers of [router.js] over a relational store

    The program is an Express application with eight routes.  Every route
    reads a few fields of the request, runs one or two parameterised SQL
    statements through [pool.query] (or one outbound [fetch]), and answers
    with a status code and a JSON body.

    The embedding follows that shape:
    - request fields are JavaScript values ([JsValue]) with the language's
      truthiness and its strict comparison with [undefined]; a string is
      the sequence of its 16-bit code units;
    - the two tables are lists of rows, and each SQL statement of the source
      is a function on the database;
    - [await], [throw] and [try]/[catch] are a state-and-exception monad [M]
      whose state carries the database, the store's fault schedule and the
      log of outbound provider calls;
    - each handler is a term of type [Request -> M Response] that reads like
      the JavaScript it translates; [arrive] adds the reading of [req.body],
      which a request without a JSON body leaves undefined. *)

From Stdlib Require Import ZArith String Ascii List Bool Lia.
From Stdlib Require Import DecimalString Permutation Sorted.
From Stdlib Require Import DecimalPos.
Import ListNotations.

Local Open Scope string_scope.
Local Open Scope list_scope.
Local Open Scope Z_scope.

(** ** JavaScript strings *)

(** A code unit of UTF-16: sixteen bits, kept as the high and the low
    byte. *)
Record code_unit : Type := mkUnit {
  unit_hi : ascii;
  unit_lo : ascii
}.

(** A JavaScript string: the sequence of its code units.  [length] counts
    code units and [substring] cuts between them, also in the middle of a
    surrogate pair. *)
Definition ustring : Type := list code_unit.

Definition unit_of_N (n : N) : code_unit :=
  mkUnit (ascii_of_N (n / 256)) (ascii_of_N (n mod 256)).

(** A text whose characters are below 256, one code unit each.  The
    literals of this development are read through it. *)
Definition utf16 (s : string) : ustring :=
  map (mkUnit zero) (list_ascii_of_string s).

Coercion utf16 : string >-> ustring.

(** The text in one byte per character, when no code unit is above 255. *)
Fixpoint narrow (s : ustring) : option string :=
  match s with
  | [] => Some ""
  | c :: r =>
      if Ascii.eqb (unit_hi c) zero
      then option_map (String (unit_lo c)) (narrow r)
      else None
  end.

(** The code units as bytes, high byte first. *)
Fixpoint utf16be (s : ustring) : string :=
  match s with
  | [] => ""
  | c :: r => String (unit_hi c) (String (unit_lo c) (utf16be r))
  end.

(** [a === b] on strings *)
Definition ustring_eqb (a b : ustring) : bool := (utf16be a =? utf16be b)%string.

(** The surrogates: D800 to DBFF open a pair, DC00 to DFFF close it. *)
Definition is_high_surrogate (c : code_unit) : bool :=
  let n := nat_of_ascii (unit_hi c) in ((216 <=? n) && (n <=? 219))%nat.

Definition is_low_surrogate (c : code_unit) : bool :=
  let n := nat_of_ascii (unit_hi c) in ((220 <=? n) && (n <=? 223))%nat.

Definition is_surrogate (c : code_unit) : bool :=
  is_high_surrogate c || is_low_surrogate c.

(** U+FFFD, the replacement character. *)
Definition replacement : code_unit := unit_of_N 65533.

(** What encoding to UTF-8 and decoding again makes of a string: a
    surrogate that is not part of a pair becomes U+FFFD, everything else
    stays (the language's own [toWellFormed]).  The driver encodes every
    text parameter so before the store sees it. *)
Fixpoint toWellFormed (s : ustring) : ustring :=
  match s with
  | [] => []
  | c :: r =>
      if is_high_surrogate c then
        match r with
        | d :: r' =>
            if is_low_surrogate d then c :: d :: toWellFormed r'
            else replacement :: toWellFormed r
        | [] => [replacement]
        end
      else if is_low_surrogate c then replacement :: toWellFormed r
      else c :: toWellFormed r
  end.

(** [s.isWellFormed()] *)
Fixpoint isWellFormed (s : ustring) : bool :=
  match s with
  | [] => true
  | c :: r =>
      if is_high_surrogate c then
        match r with
        | d :: r' => is_low_surrogate d && isWellFormed r'
        | [] => false
        end
      else negb (is_low_surrogate c) && isWellFormed r
  end.

(** The number of characters of a well-formed text, a pair counting for
    one: what the store measures a VARCHAR by. *)
Definition char_length (s : ustring) : nat :=
  length (filter (fun c => negb (is_low_surrogate c)) s).

(** ** JavaScript values *)

(** The values a JSON body, a query string or a path parameter can put in a
    field the handlers read.  A missing key reads as [JUndefined].  Numbers
    are the integers that a double holds exactly and prints in decimal;
    arrays and objects are not modelled. *)
Inductive JsValue : Type :=
| JUndefined
| JNull
| JBool (b : bool)
| JNum (n : Z)
| JStr (s : ustring).

(** [!!v] *)
Definition truthy (v : JsValue) : bool :=
  match v with
  | JUndefined | JNull => false
  | JBool b => b
  | JNum n => negb (n =? 0)
  | JStr [] => false
  | JStr (_ :: _) => true
  end.

(** [v !== undefined] *)
Definition defined (v : JsValue) : bool :=
  match v with
  | JUndefined => false
  | _ => true
  end.

(** [a || b] *)
Definition js_or (a b : JsValue) : JsValue := if truthy a then a else b.

(** ** Exceptions *)

Inductive Exn : Type :=
| TypeError (message : string)
| BcryptError (message : string)
| PgError (sqlstate : string)
| ConnectionError
| FetchError (message : string).

(** [err.message] *)
Definition exn_message (e : Exn) : string :=
  match e with
  | TypeError m | BcryptError m | FetchError m => m
  | PgError code => ("database error " ++ code)%string
  | ConnectionError => "connection terminated"
  end.

Inductive Result (A : Type) : Type :=
| Ok (a : A)
| Throw (e : Exn).
Arguments Ok {A} a.
Arguments Throw {A} e.

(** [s.substring(from, to)] and [s.length]; on a value that is not a string
    [substring] is not a function and the call throws. *)
Definition js_substring (v : JsValue) (from to : nat) : Result ustring :=
  match v with
  | JStr s => Ok (firstn (to - from) (skipn from s))
  | _ => Throw (TypeError "userInput.substring is not a function")
  end.

Definition js_length (v : JsValue) : Z :=
  match v with
  | JStr s => Z.of_nat (length s)
  | _ => 0
  end.

(** ** The store *)

(** Rows of [users] and [chats], as the two CREATE TABLE statements declare
    them.  [title] is the only nullable text column. *)
Record User : Type := mkUser {
  u_id : Z;
  u_email : ustring;
  u_password : ustring
}.

Record Chat : Type := mkChat {
  c_id : Z;
  c_user_id : Z;
  c_title : option ustring;
  c_user_input : ustring;
  c_advice_output : ustring;
  c_created_at : Z;
  c_updated_at : Z
}.

(** What the chat statements select or return:
    [id, title, user_input, advice_output, created_at, updated_at]. *)
Record ChatRow : Type := mkChatRow {
  r_id : Z;
  r_title : option ustring;
  r_user_input : ustring;
  r_advice_output : ustring;
  r_created_at : Z;
  r_updated_at : Z
}.

Definition chat_row (c : Chat) : ChatRow :=
  mkChatRow (c_id c) (c_title c) (c_user_input c) (c_advice_output c)
            (c_created_at c) (c_updated_at c).

(** Modelled from the spec: [db.js], which builds [pool], is not part of the
    sources; the store is the pair of relational tables of sections 2 and 3
    of the specification, with the constraints the CREATE TABLE statements
    of [router.js] declare.  Each SERIAL column has its sequence. *)
Record Db : Type := mkDb {
  users : list User;
  chats : list Chat;
  users_id_seq : Z;
  chats_id_seq : Z
}.

Definition empty_db : Db := mkDb [] [] 0 0.

Definition int4_max : Z := 2147483647.
Definition int4_min : Z := -2147483648.
Definition in_int4 (n : Z) : bool := (int4_min <=? n) && (n <=? int4_max).

(** *** Parameter conversion *)

(** A parameter bound to a text column: [null] and [undefined] are sent as
    NULL, everything else as its [toString()], encoded as UTF-8.  Not
    modelled: the store refuses a text that holds the code unit 0
    (SQLSTATE 22021), which the handlers turn into their 500, signup into
    its 400; what is proved below of an answer 200 or 201 does not depend
    on it. *)
Definition pg_text (v : JsValue) : option ustring :=
  match v with
  | JUndefined | JNull => None
  | JBool true => Some (utf16 "true")
  | JBool false => Some (utf16 "false")
  | JNum n => Some (utf16 (NilZero.string_of_int (Z.to_int n)))
  | JStr s => Some (toWellFormed s)
  end.

(** A value assigned to a VARCHAR(255) column. *)
Definition varchar255 (v : option ustring) : Result (option ustring) :=
  match v with
  | None => Ok None
  | Some s =>
      if (char_length s <=? 255)%nat then Ok (Some s)
      else Throw (PgError "22001")
  end.

(** A value assigned to a NOT NULL column. *)
Definition not_null {A : Type} (v : option A) : Result A :=
  match v with
  | Some a => Ok a
  | None => Throw (PgError "23502")
  end.

Definition bindR {A B : Type} (r : Result A) (k : A -> Result B) : Result B :=
  match r with
  | Ok a => k a
  | Throw e => Throw e
  end.

Definition same_id (p : option Z) (n : Z) : bool :=
  match p with
  | Some m => m =? n
  | None => false
  end.

Notation "'let?' x ':=' r 'in' k" := (bindR r (fun x => k))
  (at level 10, x name, r at level 100, k at level 200).

(** *** Integers in text *)

Definition is_space (c : ascii) : bool :=
  let n := nat_of_ascii c in
  ((n =? 32) || ((9 <=? n) && (n <=? 13)))%nat.

Fixpoint skip_spaces (s : string) : string :=
  match s with
  | String c r => if is_space c then skip_spaces r else s
  | EmptyString => s
  end.

Definition digit_of (c : ascii) : option Z :=
  let n := nat_of_ascii c in
  if ((48 <=? n) && (n <=? 57))%nat then Some (Z.of_nat (n - 48)) else None.

Fixpoint read_digits (s : string) (acc : Z) : Z * string :=
  match s with
  | String c r =>
      match digit_of c with
      | Some d => read_digits r (10 * acc + d)
      | None => (acc, s)
      end
  | EmptyString => (acc, s)
  end.

(** An integer in plain decimal: blanks, an optional sign, decimal digits,
    blanks; the value has to fit the column's 32 bits.  Every version of the
    store reads such a text as that integer. *)
Definition int4in_decimal (s : string) : option Z :=
  let s1 := skip_spaces s in
  let '(neg, s2) :=
    match s1 with
    | String "-"%char r => (true, r)
    | String "+"%char r => (false, r)
    | _ => (false, s1)
    end in
  match s2 with
  | String c _ =>
      match digit_of c with
      | None => None
      | Some _ =>
          let '(n, rest) := read_digits s2 0 in
          match skip_spaces rest with
          | EmptyString =>
              let v := if neg : bool then - n else n in
              if in_int4 v then Some v else None
          | _ => None
          end
      end
  | EmptyString => None
  end.

(** Which texts the store reads as integers besides plain decimal depends
    on its version (none before PostgreSQL 16; since then also hexadecimal,
    octal and binary with a prefix, and underscores between digits), and
    the sources do not fix the version.  [int4in_other s] is the integer
    such a text [s] stands for, if any. *)
Class Int4Syntax : Type := mkInt4Syntax {
  int4in_other : ustring -> option Z
}.

Section Statements.

Context {PG : Int4Syntax}.

(** The text of an integer as the store reads it. *)
Definition int4in (s : ustring) : option Z :=
  match narrow s with
  | Some a =>
      match int4in_decimal a with
      | Some n => Some n
      | None => int4in_other s
      end
  | None => int4in_other s
  end.

(** A parameter compared with an INTEGER column.  [Ok None] is NULL, which
    equals no row. *)
Definition pg_int4 (v : JsValue) : Result (option Z) :=
  match v with
  | JUndefined | JNull => Ok None
  | JBool _ => Throw (PgError "22P02")
  | JNum n => if in_int4 n then Ok (Some n) else Throw (PgError "22003")
  | JStr s =>
      match int4in s with
      | Some n => Ok (Some n)
      | None => Throw (PgError "22P02")
      end
  end.

(** *** The statements of the source

    Each statement is a function of its parameter array (in the order of the
    array the source passes) and of the database; it gives the rows, or the
    error the store raises, and the database afterwards.  A statement that
    raises leaves both tables as they were. *)

(** [SELECT * FROM users WHERE email = $1] *)
Definition select_users (email : JsValue) (d : Db) : Result (list User) * Db :=
  match pg_text email with
  | Some e => (Ok (filter (fun u => ustring_eqb (u_email u) e) (users d)), d)
  | None => (Ok [], d)
  end.

(** [SELECT id FROM users WHERE email = $1] *)
Definition select_user_ids (email : JsValue) (d : Db) : Result (list Z) * Db :=
  match pg_text email with
  | Some e =>
      (Ok (map u_id (filter (fun u => ustring_eqb (u_email u) e) (users d))), d)
  | None => (Ok [], d)
  end.

Definition nextval (seq : Z) : Z := seq + 1.

Definition serial (id : Z) : Result Z :=
  if in_int4 id then Ok id else Throw (PgError "22003").

(** [INSERT INTO users (email, password) VALUES ($1, $2)].  The id is drawn
    from the sequence first; the sequence keeps its new value when the row is
    then refused. *)
Definition insert_user (email password : JsValue) (d : Db)
  : Result unit * Db :=
  let id := nextval (users_id_seq d) in
  let row :=
    let? i := serial id in
    let? e := bindR (varchar255 (pg_text email)) not_null in
    let? p := bindR (varchar255 (pg_text password)) not_null in
    if existsb (fun u => ustring_eqb (u_email u) e) (users d)
    then Throw (PgError "23505")
    else Ok (mkUser i e p) in
  match row with
  | Ok u => (Ok tt, mkDb (users d ++ [u]) (chats d) id (chats_id_seq d))
  | Throw e => (Throw e, mkDb (users d) (chats d) id (chats_id_seq d))
  end.

(** ORDER BY updated_at DESC.  Rows with equal timestamps stay in table
    order here; the store promises no order among them. *)
Fixpoint insert_desc (c : Chat) (l : list Chat) : list Chat :=
  match l with
  | [] => [c]
  | x :: l' =>
      if c_updated_at x <? c_updated_at c then c :: l
      else x :: insert_desc c l'
  end.

Definition order_by_updated_at_desc (l : list Chat) : list Chat :=
  fold_right insert_desc [] l.

(** [SELECT id, title, user_input, advice_output, created_at, updated_at
     FROM chats WHERE user_id = $1 ORDER BY updated_at DESC] *)
Definition select_chats (userId : JsValue) (d : Db)
  : Result (list ChatRow) * Db :=
  let rows :=
    let? uid := pg_int4 userId in
    Ok (map chat_row
          (order_by_updated_at_desc
             (filter (fun c => same_id uid (c_user_id c)) (chats d)))) in
  (rows, d).

(** [SELECT id, title, user_input, advice_output, created_at, updated_at
     FROM chats WHERE id = $1 AND user_id = $2] *)
Definition select_chat (id userId : JsValue) (d : Db)
  : Result (list ChatRow) * Db :=
  let rows :=
    let? i := pg_int4 id in
    let? uid := pg_int4 userId in
    Ok (map chat_row
          (filter (fun c => same_id i (c_id c) && same_id uid (c_user_id c))
                  (chats d))) in
  (rows, d).

(** [INSERT INTO chats (user_id, title, user_input, advice_output)
     VALUES ($1, $2, $3, $4) RETURNING id, title, ...].  [created_at] and
    [updated_at] take their default, CURRENT_TIMESTAMP. *)
Definition insert_chat (userId chatTitle userInput adviceOutput : JsValue)
    (now : Z) (d : Db) : Result (list ChatRow) * Db :=
  let id := nextval (chats_id_seq d) in
  let row :=
    let? i := serial id in
    let? uid := bindR (pg_int4 userId) not_null in
    let? t := varchar255 (pg_text chatTitle) in
    let? q := not_null (pg_text userInput) in
    let? a := not_null (pg_text adviceOutput) in
    if existsb (fun u => u_id u =? uid) (users d)
    then Ok (mkChat i uid t q a now now)
    else Throw (PgError "23503") in
  match row with
  | Ok c =>
      (Ok [chat_row c], mkDb (users d) (chats d ++ [c]) (users_id_seq d) id)
  | Throw e => (Throw e, mkDb (users d) (chats d) (users_id_seq d) id)
  end.

(** The UPDATE statement is assembled at run time.  Its text is kept as
    structure: the SET items in the order they were pushed, each naming its
    placeholder, and the two placeholders of the WHERE clause. *)
Inductive TextColumn : Type := col_title | col_user_input | col_advice_output.

Inductive SetItem : Type :=
| SetParam (col : TextColumn) (placeholder : nat)   (* col = $n *)
| SetUpdatedAt.                                     (* updated_at = CURRENT_TIMESTAMP *)

Record UpdateChats : Type := mkUpdateChats {
  set_items : list SetItem;
  where_id : nat;
  where_user_id : nat
}.

(** The value bound to [$n]. *)
Definition placeholder (values : list JsValue) (n : nat) : Result JsValue :=
  match n with
  | O => Throw (PgError "42P02")
  | S k =>
      match nth_error values k with
      | Some v => Ok v
      | None => Throw (PgError "08P01")
      end
  end.

Definition item_arity (i : SetItem) : nat :=
  match i with
  | SetParam _ n => n
  | SetUpdatedAt => O
  end.

(** The number of parameters the statement's text declares. *)
Definition arity (stmt : UpdateChats) : nat :=
  fold_right Nat.max (Nat.max (where_id stmt) (where_user_id stmt))
             (map item_arity (set_items stmt)).

(** A SET item with its placeholder bound and converted to the column's
    type. *)
Inductive Assign : Type :=
| AssignText (col : TextColumn) (v : option ustring)
| AssignUpdatedAt (t : Z).

Definition bind_item (values : list JsValue) (now : Z) (i : SetItem)
  : Result Assign :=
  match i with
  | SetParam col_title n =>
      let? v := placeholder values n in
      let? t := varchar255 (pg_text v) in
      Ok (AssignText col_title t)
  | SetParam col n =>
      let? v := placeholder values n in
      Ok (AssignText col (pg_text v))
  | SetUpdatedAt => Ok (AssignUpdatedAt now)
  end.

Fixpoint bind_items (values : list JsValue) (now : Z) (l : list SetItem)
  : Result (list Assign) :=
  match l with
  | [] => Ok []
  | i :: l' =>
      let? a := bind_item values now i in
      let? r := bind_items values now l' in
      Ok (a :: r)
  end.

(** One assignment on one row; the NOT NULL columns refuse NULL. *)
Definition assign (a : Assign) (c : Chat) : Result Chat :=
  match a with
  | AssignText col_title t =>
      Ok (mkChat (c_id c) (c_user_id c) t (c_user_input c)
                 (c_advice_output c) (c_created_at c) (c_updated_at c))
  | AssignText col_user_input v =>
      let? s := not_null v in
      Ok (mkChat (c_id c) (c_user_id c) (c_title c) s
                 (c_advice_output c) (c_created_at c) (c_updated_at c))
  | AssignText col_advice_output v =>
      let? s := not_null v in
      Ok (mkChat (c_id c) (c_user_id c) (c_title c) (c_user_input c)
                 s (c_created_at c) (c_updated_at c))
  | AssignUpdatedAt t =>
      Ok (mkChat (c_id c) (c_user_id c) (c_title c) (c_user_input c)
                 (c_advice_output c) (c_created_at c) t)
  end.

Fixpoint assign_all (l : list Assign) (c : Chat) : Result Chat :=
  match l with
  | [] => Ok c
  | a :: l' => let? c' := assign a c in assign_all l' c'
  end.

(** The rows the WHERE clause selects are rewritten in place; the second
    component lists them for RETURNING. *)
Fixpoint update_rows (sel : Chat -> bool) (f : Chat -> Result Chat)
    (l : list Chat) : Result (list Chat * list Chat) :=
  match l with
  | [] => Ok ([], [])
  | c :: l' =>
      if sel c then
        let? c' := f c in
        let? r := update_rows sel f l' in
        Ok (c' :: fst r, c' :: snd r)
      else
        let? r := update_rows sel f l' in
        Ok (c :: fst r, snd r)
  end.

(** [UPDATE chats SET <items> WHERE id = $i AND user_id = $j
     RETURNING id, title, ...] *)
Definition update_chats (stmt : UpdateChats) (values : list JsValue)
    (now : Z) (d : Db) : Result (list ChatRow) * Db :=
  let r :=
    if negb (length values =? arity stmt)%nat then Throw (PgError "08P01")
    else
      let? i := bindR (placeholder values (where_id stmt)) pg_int4 in
      let? uid := bindR (placeholder values (where_user_id stmt)) pg_int4 in
      let? sets := bind_items values now (set_items stmt) in
      update_rows
        (fun c => same_id i (c_id c) && same_id uid (c_user_id c))
        (assign_all sets) (chats d) in
  match r with
  | Ok (table, returning) =>
      (Ok (map chat_row returning),
       mkDb (users d) table (users_id_seq d) (chats_id_seq d))
  | Throw e => (Throw e, d)
  end.

(** [DELETE FROM chats WHERE id = $1 AND user_id = $2 RETURNING id] *)
Definition delete_chat (id userId : JsValue) (d : Db)
  : Result (list Z) * Db :=
  let r :=
    let? i := pg_int4 id in
    let? uid := pg_int4 userId in
    Ok (fun c => same_id i (c_id c) && same_id uid (c_user_id c)) in
  match r with
  | Ok sel =>
      (Ok (map c_id (filter sel (chats d))),
       mkDb (users d) (filter (fun c => negb (sel c)) (chats d))
            (users_id_seq d) (chats_id_seq d))
  | Throw e => (Throw e, d)
  end.

End Statements.

(** ** Requests, responses and the world around a request *)

(** The fields the handlers read from [req.body], [req.query] and
    [req.params], for a request whose [req.body] is an object, as the JSON
    body parser leaves it when the request carries a JSON body. *)
Record Request : Type := mkRequest {
  body_email : JsValue;
  body_password : JsValue;
  body_userInput : JsValue;
  body_adviceOutput : JsValue;
  body_title : JsValue;
  query_email : JsValue;
  params_id : ustring
}.

(** A request as a handler receives it: [req.body] is an object, whose
    fields [request] holds, or it is [undefined], when the request carries
    no JSON body; [req.query] and [req.params] are there in both cases. *)
Record Arrival : Type := mkArrival {
  has_body : bool;
  request : Request
}.

(** What the provider's reply holds that the handler looks at:
    [data.error?.message] and the length of [data.candidates] ([None] when
    the field is missing or falsy). *)
Record GeminiData : Type := mkGeminiData {
  data_error_message : JsValue;
  data_candidates : option nat
}.

(** The outcome of the [fetch]: it rejects, or it gives a status and a body
    that [gRes.json()] parses or not. *)
Inductive FetchResult : Type :=
| FetchRejects (message : string)
| FetchReplies (status : Z) (body : Result GeminiData).

(** One outbound request.  Its URL is fixed up to the key, its body is the
    fixed prompt around the user's text. *)
Record GeminiCall : Type := mkGeminiCall {
  call_key : string;
  call_userInput : JsValue
}.

Inductive Json : Type :=
| Message (message : string)                        (* { message } *)
| Error (error : string)                            (* { error } *)
| ErrorDetails (error : JsValue) (details : GeminiData) (* { error, details } *)
| ErrorMessage (error message : string)             (* { error, message } *)
| Undefined                                         (* no row to send *)
| OneChat (row : ChatRow)
| Chats (rows : list ChatRow)
| Provider (data : GeminiData).

Record Response : Type := mkResponse {
  status : Z;
  json : Json
}.

(** What a request finds and cannot change: the clock the store reads for
    CURRENT_TIMESTAMP, the salt bcrypt draws, the environment variable and
    the provider's behaviour. *)
Record Env : Type := mkEnv {
  env_now : Z;
  env_salt : string;
  GEMINI_API_KEY : option string;
  env_gemini : FetchResult
}.

(** What a request can change: the database, and the log of provider calls.
    [st_faults] schedules the store's failures: the k-th [pool.query] of the
    request fails to reach the store when the k-th flag is set. *)
Record St : Type := mkSt {
  st_db : Db;
  st_faults : list bool;
  st_calls : list GeminiCall
}.

(** ** The monad of the handlers *)

Definition M (A : Type) : Type := Env -> St -> Result A * St.

Definition ret {A : Type} (a : A) : M A := fun _ st => (Ok a, st).

Definition throw {A : Type} (e : Exn) : M A := fun _ st => (Throw e, st).

Definition bind {A B : Type} (m : M A) (k : A -> M B) : M B :=
  fun env st =>
    match m env st with
    | (Ok a, st') => k a env st'
    | (Throw e, st') => (Throw e, st')
    end.

(** [try { m } catch (error) { h error }] *)
Definition try_catch {A : Type} (m : M A) (h : Exn -> M A) : M A :=
  fun env st =>
    match m env st with
    | (Ok a, st') => (Ok a, st')
    | (Throw e, st') => h e env st'
    end.

Definition lift {A : Type} (r : Result A) : M A := fun _ st => (r, st).

Notation "x <- m ;; k" := (bind m (fun x => k))
  (at level 61, m at next level, right associativity).

(** [await pool.query(text, values)]: the statement runs on the database
    unless the store cannot be reached. *)
Definition pool_query {A : Type} (stmt : Z -> Db -> Result A * Db) : M A :=
  fun env st =>
    match st_faults st with
    | true :: fs => (Throw ConnectionError, mkSt (st_db st) fs (st_calls st))
    | fs =>
        let '(r, d) := stmt (env_now env) (st_db st) in
        (r, mkSt d (tl fs) (st_calls st))
    end.

(** [process.env.GEMINI_API_KEY] *)
Definition getenv_GEMINI_API_KEY : M (option string) :=
  fun env st => (Ok (GEMINI_API_KEY env), st).

(** [await fetch(geminiUrl, ...)]: the call is issued, then the provider
    answers or the promise rejects. *)
Definition fetch (call : GeminiCall) : M (Z * Result GeminiData) :=
  fun env st =>
    let st' := mkSt (st_db st) (st_faults st) (st_calls st ++ [call])%list in
    match env_gemini env with
    | FetchRejects m => (Throw (FetchError m), st')
    | FetchReplies s b => (Ok (s, b), st')
    end.

(** [gRes.ok] *)
Definition fetch_ok (s : Z) : bool := (200 <=? s) && (s <=? 299).

(** [res.status(s).json(j)] and [res.json(j)] *)
Definition res_status_json (s : Z) (j : Json) : M Response :=
  ret (mkResponse s j).
Definition res_json (j : Json) : M Response := ret (mkResponse 200 j).

(** [const { email, ... } = req.body]: destructuring [undefined] throws. *)
Definition destructure_body (a : Arrival) : M Request :=
  if has_body a then ret (request a)
  else throw (TypeError
    "Cannot destructure property 'email' of 'req.body' as it is undefined.").

(** The fields of [req.body || {}] when [req.body] is undefined. *)
Definition without_body (req : Request) : Request :=
  mkRequest JUndefined JUndefined JUndefined JUndefined JUndefined
            (query_email req) (params_id req).

(** ** bcrypt *)

(** The library's two functions.  [bcrypt_hash data rounds salt] is the
    hash of [data] at the given cost under a drawn salt, a text of ASCII
    characters; [bcrypt_compare data encrypted] checks a text against a
    hash.  The one law the development relies on: a hash verifies its own
    text. *)
Class Bcrypt : Type := mkBcrypt {
  bcrypt_hash : ustring -> nat -> string -> string;
  bcrypt_compare : ustring -> ustring -> bool;
  bcrypt_compare_hash :
    forall data rounds salt,
      bcrypt_compare data (bcrypt_hash data rounds salt) = true
}.

(** ** The handlers *)

Section Handlers.

Context {B : Bcrypt} {PG : Int4Syntax}.

(** [await bcrypt.hash(data, rounds)]: rejects unless [data] is a string. *)
Definition bcrypt_hash_js (data : JsValue) (rounds : nat) : M string :=
  fun env st =>
    match data with
    | JStr s => (Ok (bcrypt_hash s rounds (env_salt env)), st)
    | JUndefined | JNull =>
        (Throw (BcryptError "data and salt arguments required"), st)
    | _ => (Throw (BcryptError "data must be a string or Buffer"), st)
    end.

(** [await bcrypt.compare(data, encrypted)]: rejects unless [data] is a
    string. *)
Definition bcrypt_compare_js (data : JsValue) (encrypted : ustring) : M bool :=
  match data with
  | JStr s => ret (bcrypt_compare s encrypted)
  | JUndefined | JNull =>
      throw (BcryptError "data and hash arguments required")
  | _ => throw (BcryptError "data and hash must be strings")
  end.

(** [app.post('/signup', ...)], from its [try] on *)
Definition post_signup (req : Request) : M Response :=
  let email := body_email req in
  let password := body_password req in
  try_catch
    (hashedPassword <- bcrypt_hash_js password 10 ;;
     _ <- pool_query (fun _ => insert_user email (JStr hashedPassword)) ;;
     res_status_json 201 (Message "User registered successfully"))
    (fun error =>
       res_status_json 400 (Error "User already exists or invalid data")).

(** [app.post('/login', ...)], from its [try] on *)
Definition post_login (req : Request) : M Response :=
  let email := body_email req in
  let password := body_password req in
  try_catch
    (result <- pool_query (fun _ => select_users email) ;;
     match result with
     | [] => res_status_json 400 (Error "User not found")
     | user :: _ =>
         isMatch <- bcrypt_compare_js password (u_password user) ;;
         if negb isMatch
         then res_status_json 401 (Error "Invalid credentials")
         else res_json (Message "Login successful")
     end)
    (fun error => res_status_json 500 (Error "Server error")).

(** [data.error?.message || 'Gemini API error'] *)
Definition gemini_error (data : GeminiData) : JsValue :=
  js_or (data_error_message data) (JStr "Gemini API error").

(** [!data.candidates || data.candidates.length === 0] *)
Definition no_candidates (data : GeminiData) : bool :=
  match data_candidates data with
  | None => true
  | Some n => (n =? 0)%nat
  end.

(** [app.post('/api/generate', ...)] *)
Definition post_api_generate (req : Request) : M Response :=
  try_catch
    (let userInput := body_userInput req in
     if negb (truthy userInput)
     then res_status_json 400 (Error "userInput is required")
     else
       key <- getenv_GEMINI_API_KEY ;;
       if negb (truthy (match key with Some k => JStr k | None => JUndefined end))
       then res_status_json 500 (Error "API key not configured")
       else
         gRes <- fetch (mkGeminiCall (match key with Some k => k | None => "" end)
                                     userInput) ;;
         data <- lift (snd gRes) ;;
         if negb (fetch_ok (fst gRes))
         then res_status_json (fst gRes) (ErrorDetails (gemini_error data) data)
         else if no_candidates data
         then res_status_json 500
                (ErrorDetails (JStr "No response generated") data)
         else res_status_json 200 (Provider data))
    (fun err =>
       res_status_json 500
         (ErrorMessage "Internal server error" (exn_message err))).

(** [app.get('/api/chats', ...)] *)
Definition get_api_chats (req : Request) : M Response :=
  try_catch
    (let email := query_email req in
     if negb (truthy email)
     then res_status_json 400 (Error "Email is required")
     else
       userResult <- pool_query (fun _ => select_user_ids email) ;;
       match userResult with
       | [] => res_status_json 404 (Error "User not found")
       | userId :: _ =>
           result <- pool_query (fun _ => select_chats (JNum userId)) ;;
           res_json (Chats result)
       end)
    (fun error => res_status_json 500 (Error "Server error")).

(** [result.rows[0]] as a response body *)
Definition first_row (rows : list ChatRow) : Json :=
  match rows with
  | row :: _ => OneChat row
  | [] => Undefined
  end.

(** [app.get('/api/chats/:id', ...)] *)
Definition get_api_chats_id (req : Request) : M Response :=
  try_catch
    (let id := params_id req in
     let email := query_email req in
     if negb (truthy email)
     then res_status_json 400 (Error "Email is required")
     else
       userResult <- pool_query (fun _ => select_user_ids email) ;;
       match userResult with
       | [] => res_status_json 404 (Error "User not found")
       | userId :: _ =>
           result <- pool_query (fun _ => select_chat (JStr id) (JNum userId)) ;;
           if (length result =? 0)%nat
           then res_status_json 404 (Error "Chat not found")
           else res_json (first_row result)
       end)
    (fun error => res_status_json 500 (Error "Server error")).

(** [title || userInput.substring(0, 50) + (userInput.length > 50 ? '...' : '')] *)
Definition chatTitle (title userInput : JsValue) : Result JsValue :=
  if truthy title then Ok title
  else
    let? prefix := js_substring userInput 0 50 in
    Ok (JStr (prefix ++
              (if 50 <? js_length userInput then utf16 "..." else []))).

(** [app.post('/api/chats', ...)], after the destructuring of [req.body] *)
Definition post_api_chats (req : Request) : M Response :=
  try_catch
    (let email := body_email req in
     let userInput := body_userInput req in
     let adviceOutput := body_adviceOutput req in
     let title := body_title req in
     if negb (truthy email) || negb (truthy userInput)
        || negb (truthy adviceOutput)
     then res_status_json 400
            (Error "Email, userInput, and adviceOutput are required")
     else
       userResult <- pool_query (fun _ => select_user_ids email) ;;
       match userResult with
       | [] => res_status_json 404 (Error "User not found")
       | userId :: _ =>
           chatTitle <- lift (chatTitle title userInput) ;;
           result <- pool_query
                       (insert_chat (JNum userId) chatTitle userInput
                                    adviceOutput) ;;
           res_status_json 201 (first_row result)
       end)
    (fun error => res_status_json 500 (Error "Server error")).

(** The three arrays and the counter the update handler fills:
    [updates], [values], [paramCount]. *)
Definition Builder : Type := (list SetItem * list JsValue * nat)%type.

(** [if (v !== undefined) { updates.push(`col = $${paramCount++}`);
     values.push(v); }] *)
Definition push_if_defined (col : TextColumn) (v : JsValue) (b : Builder)
  : Builder :=
  let '(updates, values, paramCount) := b in
  if defined v
  then ((updates ++ [SetParam col paramCount])%list,
        (values ++ [v])%list, S paramCount)
  else b.

(** [app.put('/api/chats/:id', ...)], after the destructuring of
    [req.body] *)
Definition put_api_chats_id (req : Request) : M Response :=
  try_catch
    (let id := params_id req in
     let email := body_email req in
     let userInput := body_userInput req in
     let adviceOutput := body_adviceOutput req in
     let title := body_title req in
     if negb (truthy email)
     then res_status_json 400 (Error "Email is required")
     else
       userResult <- pool_query (fun _ => select_user_ids email) ;;
       match userResult with
       | [] => res_status_json 404 (Error "User not found")
       | userId :: _ =>
           let '(updates, values, paramCount) :=
             push_if_defined col_advice_output adviceOutput
               (push_if_defined col_user_input userInput
                  (push_if_defined col_title title ([], [], 1%nat))) in
           if (length updates =? 0)%nat
           then res_status_json 400 (Error "No fields to update")
           else
             let updates := (updates ++ [SetUpdatedAt])%list in
             let values := (values ++ [JStr id; JNum userId])%list in
             result <- pool_query
                         (update_chats
                            (mkUpdateChats updates paramCount (S paramCount))
                            values) ;;
             if (length result =? 0)%nat
             then res_status_json 404 (Error "Chat not found")
             else res_json (first_row result)
       end)
    (fun error => res_status_json 500 (Error "Server error")).

(** [app.delete('/api/chats/:id', ...)] *)
Definition delete_api_chats_id (req : Request) : M Response :=
  try_catch
    (let id := params_id req in
     let email := query_email req in
     if negb (truthy email)
     then res_status_json 400 (Error "Email is required")
     else
       userResult <- pool_query (fun _ => select_user_ids email) ;;
       match userResult with
       | [] => res_status_json 404 (Error "User not found")
       | userId :: _ =>
           result <- pool_query (fun _ => delete_chat (JStr id) (JNum userId)) ;;
           if (length result =? 0)%nat
           then res_status_json 404 (Error "Chat not found")
           else res_json (Message "Chat deleted successfully")
       end)
    (fun error => res_status_json 500 (Error "Server error")).

(** ** The application *)

Inductive Route : Type :=
| POST_signup
| POST_login
| POST_api_generate
| GET_api_chats
| GET_api_chats_id
| POST_api_chats
| PUT_api_chats_id
| DELETE_api_chats_id.

(** The handlers on a request whose body is an object. *)
Definition app (r : Route) : Request -> M Response :=
  match r with
  | POST_signup => post_signup
  | POST_login => post_login
  | POST_api_generate => post_api_generate
  | GET_api_chats => get_api_chats
  | GET_api_chats_id => get_api_chats_id
  | POST_api_chats => post_api_chats
  | PUT_api_chats_id => put_api_chats_id
  | DELETE_api_chats_id => delete_api_chats_id
  end.

(** One request served on a database, under a fault schedule, starting
    from an empty call log. *)
Definition serve (r : Route) (req : Request) (env : Env) (faults : list bool)
    (d : Db) : Result Response * St :=
  app r req env (mkSt d faults []).

(** The handlers as they are registered, reading [req.body] first where
    they read it at all.  Signup and login destructure it before their
    [try], so that the exception leaves the handler; create and update
    destructure it as the first statement of their [try], whose [catch]
    answers 500; generate reads [req.body || {}]; list, get and delete read
    the query and the path only. *)
Definition arrive (r : Route) (a : Arrival) : M Response :=
  match r with
  | POST_signup | POST_login =>
      req <- destructure_body a ;; app r req
  | POST_api_chats | PUT_api_chats_id =>
      try_catch
        (req <- destructure_body a ;; app r req)
        (fun error => res_status_json 500 (Error "Server error"))
  | POST_api_generate =>
      app r (if has_body a then request a else without_body (request a))
  | GET_api_chats | GET_api_chats_id | DELETE_api_chats_id =>
      app r (request a)
  end.

(** One arrival handled on a database, as [serve] does for a request with a
    body. *)
Definition receive (r : Route) (a : Arrival) (env : Env) (faults : list bool)
    (d : Db) : Result Response * St :=
  arrive r a env (mkSt d faults []).

(** The databases the application can be in: the two tables as the start-up
    statements create them, and whatever a served request leaves. *)
Inductive reachable : Db -> Prop :=
| reachable_start : reachable empty_db
| reachable_serve d r req env faults :
    reachable d ->
    reachable (st_db (snd (serve r req env faults d))).

End Handlers.

(** ** Consistency of the store *)

(** What the schema promises of a database (the two primary keys, the
    UNIQUE email, the foreign key, ids drawn from 32-bit sequences), and
    two facts the handlers add: whoever owns a chat has a non-empty email,
    since chats are only created for an email the handler found truthy; and
    an email is stored as the driver encoded it. *)
Record consistent (d : Db) : Prop := mkConsistent {
  users_pkey : NoDup (map u_id (users d));
  users_email_key : NoDup (map u_email (users d));
  chats_pkey : NoDup (map c_id (chats d));
  chats_user_id_fkey :
    forall c, In c (chats d) ->
      exists u, In u (users d) /\ u_id u = c_user_id c /\ u_email u <> [];
  users_id_range :
    forall u, In u (users d) ->
      in_int4 (u_id u) = true /\ u_id u <= users_id_seq d;
  chats_id_range :
    forall c, In c (chats d) ->
      in_int4 (c_id c) = true /\ c_id c <= chats_id_seq d;
  users_email_text :
    forall u, In u (users d) -> toWellFormed (u_email u) = u_email u
}.

(** The postcondition of an invariant: whatever the result, the database is
    consistent. *)
Definition kept {A : Type} : Result A -> Db -> Prop := fun _ d => consistent d.

(** The store is reachable for the whole request. *)
Definition quiet (faults : list bool) : Prop := Forall (fun f => f = false) faults.

(** The chat rows a response body carries. *)
Definition returned_rows (j : Json) : list ChatRow :=
  match j with
  | OneChat row => [row]
  | Chats rows => rows
  | _ => []
  end.



(** The account a chat belongs to. *)
Definition owns (u : User) (c : Chat) : bool := c_user_id c =? u_id u.

(** ** Assertions on handlers

    [hoare env P m Q]: run from any state whose database satisfies [P], in
    the environment [env], the computation [m] ends with a result and a
    database that satisfy [Q]. *)
Definition hoare {A : Type} (env : Env) (P : Db -> Prop) (m : M A)
    (Q : Result A -> Db -> Prop) : Prop :=
  forall st, P (st_db st) -> Q (fst (m env st)) (st_db (snd (m env st))).

(** ** What the update handler is meant to do

    The specification's words for update: the supplied fields (title,
    userInput, adviceOutput) replace the stored ones, the omitted ones stay,
    updated_at is refreshed.  [updated] says so for one row, without
    placeholders or parameter arrays; the handler's assembled statement is
    compared with it below. *)
Definition updated (title userInput adviceOutput : JsValue) (now : Z)
    (c : Chat) : Result Chat :=
  let? t := if defined title then varchar255 (pg_text title)
            else Ok (c_title c) in
  let? q := if defined userInput then not_null (pg_text userInput)
            else Ok (c_user_input c) in
  let? a := if defined adviceOutput then not_null (pg_text adviceOutput)
            else Ok (c_advice_output c) in
  Ok (mkChat (c_id c) (c_user_id c) t q a (c_created_at c) now).

(** [updated] on the one row with the given id and owner. *)
Definition update_where {PG : Int4Syntax}
    (title userInput adviceOutput : JsValue)
    (id : ustring) (userId : Z) (now : Z) (d : Db)
  : Result (list ChatRow) * Db :=
  let r :=
    let? i := pg_int4 (JStr id) in
    let? uid := pg_int4 (JNum userId) in
    let? _ := if defined title then varchar255 (pg_text title)
              else Ok None in
    update_rows
      (fun c => same_id i (c_id c) && same_id uid (c_user_id c))
      (updated title userInput adviceOutput now) (chats d) in
  match r with
  | Ok (table, returning) =>
      (Ok (map chat_row returning),
       mkDb (users d) table (users_id_seq d) (chats_id_seq d))
  | Throw e => (Throw e, d)
  end.

(** The request with another [title] in its body. *)
Definition set_title (title : JsValue) (req : Request) : Request :=
  mkRequest (body_email req) (body_password req) (body_userInput req)
            (body_adviceOutput req) title (query_email req) (params_id req).

(** The title the specification gives a chat when the request supplies
    none: the first 50 code units of the input and "..." when the input is
    longer than 50, the input itself otherwise. *)
Definition default_title (s : ustring) : ustring :=
  if (50 <? length s)%nat then firstn 50 s ++ utf16 "..." else s.

(** A text without surrogates: every code unit is a character of its own,
    as in Latin, Arabic or Devanagari script. *)
Definition no_surrogate (s : ustring) : Prop :=
  Forall (fun c => is_surrogate c = false) s.

(** ** Vocabulary of the properties *)

(** The two tables hold the same rows. *)
Definition same_rows (d d' : Db) : Prop :=
  users d' = users d /\ chats d' = chats d.

(** The statuses a route answers with. *)
Definition statuses (r : Route) (env : Env) : list Z :=
  match r with
  | POST_signup => [201; 400]
  | POST_login => [200; 400; 401; 500]
  | POST_api_generate =>
      match env_gemini env with
      | FetchReplies s _ => [200; 400; 500; s]
      | FetchRejects _ => [200; 400; 500]
      end
  | POST_api_chats => [201; 400; 404; 500]
  | GET_api_chats | GET_api_chats_id | PUT_api_chats_id
  | DELETE_api_chats_id => [200; 400; 404; 500]
  end.

(** The routes whose handler destructures [req.body] outside its [try]. *)
Definition destructures_unguarded (r : Route) : bool :=
  match r with
  | POST_signup | POST_login => true
  | _ => false
  end.

(** The routes whose handler destructures [req.body] inside its [try]. *)
Definition destructures_guarded (r : Route) : bool :=
  match r with
  | POST_api_chats | PUT_api_chats_id => true
  | _ => false
  end.

(** The body of a handler answers with one of the statuses [l], or
    throws. *)
Definition answers (l : list Z) : Result Response -> Db -> Prop :=
  fun r _ =>
    match r with
    | Ok resp => In (status resp) l
    | Throw _ => True
    end.

(** What a handler may do to the rows: nothing, unless it answers 200 or
    201. *)
Definition spares (d : Db) : Result Response -> Db -> Prop :=
  fun r d' =>
    match r with
    | Ok resp => status resp <> 200 -> status resp <> 201 -> same_rows d d'
    | Throw _ => same_rows d d'
    end.

(** The routes that only read. *)
Definition reads (r : Route) : bool :=
  match r with
  | POST_login | POST_api_generate | GET_api_chats | GET_api_chats_id => true
  | _ => false
  end.

(** The email by which a route that works on chats finds the account. *)
Definition scoped_email (r : Route) (req : Request) : option JsValue :=
  match r with
  | GET_api_chats | GET_api_chats_id | DELETE_api_chats_id =>
      Some (query_email req)
  | PUT_api_chats_id | POST_api_chats => Some (body_email req)
  | _ => None
  end.

(** An id in decimal, as a client that read it in a JSON answer writes it in
    the path. *)
Definition id_text (n : Z) : ustring :=
  utf16 (NilZero.string_of_int (Z.to_int n)).

(** The value the update handler binds to a column. *)
Definition field_of (col : TextColumn) (title userInput adviceOutput : JsValue)
  : JsValue :=
  match col with
  | col_title => title
  | col_user_input => userInput
  | col_advice_output => adviceOutput
  end.

(** ** Sample data

    A stand-in for bcrypt, a store that reads integers in plain decimal
    only, and a short history of requests, used to run the handlers on
    concrete inputs. *)

Definition low_bytes (s : ustring) : string :=
  string_of_list_ascii (map unit_lo s).

Definition sample_bcrypt : Bcrypt :=
  mkBcrypt (fun data _ _ => ("$2b$10$" ++ low_bytes data)%string)
           (fun data encrypted =>
              ustring_eqb (utf16 ("$2b$10$" ++ low_bytes data)%string)
                          encrypted)
           (fun data _ _ =>
              String.eqb_refl
                (utf16be (utf16 ("$2b$10$" ++ low_bytes data)%string))).

Definition plain_decimal : Int4Syntax := mkInt4Syntax (fun _ => None).

Definition no_fields : Request :=
  mkRequest JUndefined JUndefined JUndefined JUndefined JUndefined
            JUndefined "".

(** A request with a JSON body. *)
Definition with_body (email password userInput adviceOutput title : JsValue)
    (id : ustring) : Request :=
  mkRequest email password userInput adviceOutput title JUndefined id.

(** A request with [?email=...] and, where the route has one, [:id]. *)
Definition with_query (email : JsValue) (id : ustring) : Request :=
  mkRequest JUndefined JUndefined JUndefined JUndefined JUndefined email id.

(** A request without a JSON body. *)
Definition bodyless (req : Request) : Arrival := mkArrival false req.

Definition gemini_answers : FetchResult :=
  FetchReplies 200 (Ok (mkGeminiData JUndefined (Some 1%nat))).

Definition at_time (t : Z) : Env := mkEnv t "salt" (Some "key") gemini_answers.

(** A history of requests, each served with the store reachable. *)
Fixpoint replay {B : Bcrypt} {PG : Int4Syntax}
    (script : list (Route * Request * Env)) (d : Db) : Db :=
  match script with
  | [] => d
  | (r, req, env) :: rest => replay rest (st_db (snd (serve r req env [] d)))
  end.

Definition sample_script : list (Route * Request * Env) :=
  [ (POST_signup,
     with_body (JStr "a@x.com") (JStr "pw1") JUndefined JUndefined JUndefined "",
     at_time 10);
    (POST_signup,
     with_body (JStr "b@x.com") (JStr "pw2") JUndefined JUndefined JUndefined "",
     at_time 20);
    (POST_api_chats,
     with_body (JStr "a@x.com") JUndefined (JStr "I feel nauseous")
               (JStr "Try ginger tea") JUndefined "",
     at_time 100);
    (POST_api_chats,
     with_body (JStr "b@x.com") JUndefined (JStr "How should I sleep?")
               (JStr "On your left side") (JStr "Sleep") "",
     at_time 200);
    (POST_api_chats,
     with_body (JStr "a@x.com") JUndefined (JStr "What should I eat?")
               (JStr "Plenty of iron") JUndefined "",
     at_time 300);
    (PUT_api_chats_id,
     with_body (JStr "a@x.com") JUndefined JUndefined JUndefined (JStr "Diet")
               "3",
     at_time 400) ].

Definition sample_db : Db :=
  Eval vm_compute in
    replay (B := sample_bcrypt) (PG := plain_decimal) sample_script empty_db.

Definition alice : User := mkUser 1 "a@x.com" "$2b$10$pw1".
Definition bob : User := mkUser 2 "b@x.com" "$2b$10$pw2".

Definition nausea_chat : Chat :=
  mkChat 1 1 (Some (utf16 "I feel nauseous")) "I feel nauseous"
         "Try ginger tea" 100 100.
Definition sleep_chat : Chat :=
  mkChat 2 2 (Some (utf16 "Sleep")) "How should I sleep?" "On your left side"
         200 200.
Definition diet_chat : Chat :=
  mkChat 3 1 (Some (utf16 "Diet")) "What should I eat?" "Plenty of iron"
         300 400.

(** Requests on the sample database. *)
Definition login_as (email password : string) : Request :=
  with_body (JStr email) (JStr password) JUndefined JUndefined JUndefined "".

Definition long_question : string :=
  "I have been feeling dizzy every morning for two weeks now".

Definition create_long : Request :=
  with_body (JStr "a@x.com") JUndefined (JStr long_question)
            (JStr "Drink water") JUndefined "".

(** The row that [create_long] adds to the sample database at time 500. *)
Definition long_row : ChatRow :=
  mkChatRow 4 (Some (default_title long_question)) long_question
            "Drink water" 500 500.

(** A question of 67 characters in Urdu script: none of its code units fits
    a byte, none is a surrogate. *)
Definition urdu_question : ustring :=
  map unit_of_N
    [1605; 1580; 1726; 1746; 32; 1585; 1608; 1586; 1575; 1606; 1729; 32;
     1589; 1576; 1581; 32; 1705; 1746; 32; 1608; 1602; 1578; 32; 1576; 1729;
     1578; 32; 1605; 1578; 1604; 1740; 32; 1575; 1608; 1585; 32; 1670; 1705;
     1585; 32; 1570; 1578; 1746; 32; 1729; 1740; 1722; 1548; 32; 1705; 1740;
     1575; 32; 1740; 1729; 32; 1593; 1575; 1605; 32; 1576; 1575; 1578; 32;
     1729; 1746; 1567]%N.



(** A question whose 50th and 51st code units are the two halves of one
    character outside the basic plane (U+1F930): [substring(0, 50)] cuts
    between them. *)
Definition split_question : ustring :=
  utf16 "I have been feeling dizzy every morning for two w"
  ++ map unit_of_N [55358; 56624]%N ++ utf16 " weeks now".

Definition create_split : Request :=
  with_body (JStr "a@x.com") JUndefined (JStr split_question)
            (JStr "Drink water") JUndefined "".

Definition update_advice : Request :=
  with_body (JStr "a@x.com") JUndefined JUndefined (JStr "Eat lentils")
            JUndefined "3".

Definition update_blank_title : Request :=
  with_body (JStr "a@x.com") JUndefined JUndefined JUndefined (JStr "") "3".

(** Chat 3 of the sample database after [update_blank_title] at time 500. *)
Definition blank_diet_chat : Chat :=
  mkChat 3 1 (Some []) "What should I eat?" "Plenty of iron" 300 500.




(** More requests on the sample database. *)
Definition bob_on_chat_3 : Request :=
  mkRequest (JStr "b@x.com") JUndefined JUndefined JUndefined (JStr "mine")
            (JStr "b@x.com") "3".

Definition ask (question : string) : Request :=
  with_body JUndefined JUndefined (JStr question) JUndefined JUndefined "".

(** A provider that refuses with 429 and a message. *)
Definition gemini_refuses : Env :=
  mkEnv 500 "salt" (Some "key")
        (FetchReplies 429 (Ok (mkGeminiData (JStr "quota exceeded") None))).

(** A store that also reads hexadecimal with the prefix 0x, for the one
    text the runs below use. *)
Definition reads_0x3 : Int4Syntax :=
  mkInt4Syntax (fun s => if ustring_eqb s "0x3" then Some 3 else None).
(** * Properties *)

Section Properties.

Context {B : Bcrypt} {PG : Int4Syntax}.

(** ** Strings *)

Lemma utf16be_inj (a b : ustring) : utf16be a = utf16be b -> a = b.
Proof.
  revert b. induction a as [ | [h l] a IH]; intros [ | [h' l'] b]; simpl;
    try discriminate; [reflexivity | ].
  intros [= -> -> H]. f_equal. now apply IH.
Qed.

Lemma ustring_eqb_eq (a b : ustring) : ustring_eqb a b = true <-> a = b.
Proof.
  unfold ustring_eqb. rewrite String.eqb_eq. split.
  - apply utf16be_inj.
  - now intros ->.
Qed.

Lemma ustring_eqb_refl (a : ustring) : ustring_eqb a a = true.
Proof. now apply ustring_eqb_eq. Qed.


Lemma utf16_cons (c : ascii) (s : string) :
  utf16 (String c s) = mkUnit zero c :: utf16 s.
Proof. reflexivity. Qed.

Lemma utf16_nil (s : string) : utf16 s = [] -> s = "".
Proof. destruct s; [reflexivity | discriminate]. Qed.

Lemma narrow_utf16 (s : string) : narrow (utf16 s) = Some s.
Proof.
  induction s as [ | c s IH]; [reflexivity | ].
  rewrite utf16_cons. simpl. now rewrite IH.
Qed.

(** Induction along the recursion of [toWellFormed]: on the rest, and on
    what follows the rest's first code unit. *)
Lemma ustring_ind2 (P : ustring -> Prop) :
  P [] ->
  (forall c r, P r -> (forall d r', r = d :: r' -> P r') -> P (c :: r)) ->
  forall s, P s.
Proof.
  intros Hnil Hcons s.
  assert (P s /\ forall d r', s = d :: r' -> P r') as [H _]; [ | exact H ].
  induction s as [ | c r [IH1 IH2]].
  - split; [exact Hnil | discriminate].
  - split; [now apply Hcons | ]. now intros d r' [= _ <-].
Qed.

Lemma toWellFormed_cons (c : code_unit) (r : ustring) :
  toWellFormed (c :: r) =
  if is_high_surrogate c then
    match r with
    | d :: r' =>
        if is_low_surrogate d then c :: d :: toWellFormed r'
        else replacement :: toWellFormed r
    | [] => [replacement]
    end
  else if is_low_surrogate c then replacement :: toWellFormed r
  else c :: toWellFormed r.
Proof. now destruct r. Qed.

Lemma isWellFormed_cons (c : code_unit) (r : ustring) :
  isWellFormed (c :: r) =
  if is_high_surrogate c then
    match r with
    | d :: r' => is_low_surrogate d && isWellFormed r'
    | [] => false
    end
  else negb (is_low_surrogate c) && isWellFormed r.
Proof. now destruct r. Qed.

Lemma toWellFormed_nil (s : ustring) : toWellFormed s = [] -> s = [].
Proof.
  destruct s as [ | c r]; [reflexivity | ]. rewrite toWellFormed_cons.
  destruct (is_high_surrogate c);
    [ destruct r as [ | d r']; [ | destruct (is_low_surrogate d) ]
    | destruct (is_low_surrogate c) ];
    discriminate.
Qed.

Lemma toWellFormed_length (s : ustring) :
  length (toWellFormed s) = length s.
Proof.
  induction s as [ | c r IH1 IH2] using ustring_ind2; [reflexivity | ].
  rewrite toWellFormed_cons. destruct (is_high_surrogate c).
  - destruct r as [ | d r']; [reflexivity | ].
    destruct (is_low_surrogate d); cbn [length].
    + now rewrite (IH2 d r' eq_refl).
    + now rewrite IH1.
  - destruct (is_low_surrogate c); cbn [length]; now rewrite IH1.
Qed.

Lemma isWellFormed_replacement (s : ustring) :
  isWellFormed (replacement :: s) = isWellFormed s.
Proof. now rewrite isWellFormed_cons. Qed.

Lemma isWellFormed_toWellFormed (s : ustring) :
  isWellFormed (toWellFormed s) = true.
Proof.
  induction s as [ | c r IH1 IH2] using ustring_ind2; [reflexivity | ].
  rewrite toWellFormed_cons. destruct (is_high_surrogate c) eqn:Hc.
  - destruct r as [ | d r']; [reflexivity | ].
    destruct (is_low_surrogate d) eqn:Hd.
    + rewrite isWellFormed_cons, Hc, Hd. exact (IH2 d r' eq_refl).
    + rewrite isWellFormed_replacement. exact IH1.
  - destruct (is_low_surrogate c) eqn:Hl.
    + rewrite isWellFormed_replacement. exact IH1.
    + rewrite isWellFormed_cons, Hc, Hl. exact IH1.
Qed.

Lemma toWellFormed_fixed (s : ustring) :
  isWellFormed s = true -> toWellFormed s = s.
Proof.
  induction s as [ | c r IH1 IH2] using ustring_ind2; [reflexivity | ].
  rewrite toWellFormed_cons, isWellFormed_cons.
  destruct (is_high_surrogate c).
  - destruct r as [ | d r']; [discriminate | ].
    destruct (is_low_surrogate d); cbn [andb]; [ | discriminate ].
    intros H. now rewrite (IH2 d r' eq_refl H).
  - destruct (is_low_surrogate c); cbn [andb negb]; [discriminate | ].
    intros H. now rewrite (IH1 H).
Qed.

(** Encoding twice is encoding once: what the store holds is well
    formed. *)
Lemma toWellFormed_idem (s : ustring) :
  toWellFormed (toWellFormed s) = toWellFormed s.
Proof. apply toWellFormed_fixed, isWellFormed_toWellFormed. Qed.

Lemma no_surrogate_fixed (s : ustring) :
  no_surrogate s -> toWellFormed s = s.
Proof.
  unfold no_surrogate, is_surrogate. induction 1 as [ | c r Hc _ IH];
    [reflexivity | ].
  apply orb_false_iff in Hc as [Hh Hl].
  now rewrite toWellFormed_cons, Hh, Hl, IH.
Qed.

Lemma toWellFormed_utf16 (s : string) : toWellFormed (utf16 s) = utf16 s.
Proof.
  apply no_surrogate_fixed. unfold no_surrogate.
  induction s as [ | c s IH]; [constructor | ].
  rewrite utf16_cons. constructor; [reflexivity | exact IH].
Qed.




Lemma char_length_le (s : ustring) : (char_length s <= length s)%nat.
Proof. unfold char_length. apply filter_length_le. Qed.

(** ** Values and conversions *)

Lemma string_of_int_nonempty (i : Decimal.int) :
  NilZero.string_of_int i <> "".
Proof.
  destruct i as [u | u]; simpl; [ | discriminate ].
  destruct u; simpl; discriminate.
Qed.

Lemma truthy_text (v : JsValue) :
  truthy v = true -> exists s, pg_text v = Some s /\ s <> [].
Proof.
  destruct v as [ | | b | n | s]; simpl; try discriminate.
  - intros ->. eexists. split; [reflexivity | discriminate].
  - intros _. eexists. split; [reflexivity | ].
    intros H. apply utf16_nil in H. now apply string_of_int_nonempty in H.
  - intros H. eexists. split; [reflexivity | ].
    intros Hnil. apply toWellFormed_nil in Hnil. subst s. discriminate H.
Qed.

(** What is sent as a text parameter is well formed. *)
Lemma pg_text_well_formed (v : JsValue) (s : ustring) :
  pg_text v = Some s -> toWellFormed s = s.
Proof.
  destruct v as [ | | [ | ] | n | t]; simpl; intros [= <-];
    try apply toWellFormed_utf16.
  apply toWellFormed_idem.
Qed.

Lemma truthy_defined (v : JsValue) : truthy v = true -> defined v = true.
Proof. destruct v; simpl; intros; congruence. Qed.

Lemma truthy_JStr (s : ustring) : truthy (JStr s) = true <-> s <> [].
Proof. destruct s; simpl; split; congruence. Qed.

(** The truthiness of an environment variable that is set. *)
Lemma truthy_key (k : string) : truthy (JStr k) = negb (k =? "")%string.
Proof. now destruct k. Qed.

Lemma pg_int4_JNum (n : Z) : in_int4 n = true -> pg_int4 (JNum n) = Ok (Some n).
Proof. intros H. simpl. now rewrite H. Qed.

(** ** Lists keyed by a column *)

Lemma filter_none {A : Type} (t : A -> bool) (l : list A) :
  (forall x, In x l -> t x = false) -> filter t l = [].
Proof.
  induction l as [ | a l IH]; simpl; intros H; [reflexivity | ].
  rewrite (H a) by now left. apply IH. intros x Hx. apply H. now right.
Qed.

Lemma filter_key {A K : Type} (key : A -> K) (t : A -> bool) (l : list A)
    (c : A) :
  NoDup (map key l) ->
  (forall x, In x l -> t x = true -> key x = key c) ->
  In c l -> t c = true ->
  filter t l = [c].
Proof.
  induction l as [ | a l IH]; simpl; intros Hnd Hkey Hin Ht; [contradiction | ].
  inversion Hnd as [ | ? ? Hnotin Hnd']; subst.
  destruct Hin as [-> | Hin].
  - rewrite Ht. f_equal. apply filter_none. intros x Hx.
    destruct (t x) eqn:Hx'; [ | reflexivity ].
    exfalso. apply Hnotin. rewrite <- (Hkey x (or_intror Hx) Hx').
    now apply in_map.
  - destruct (t a) eqn:Ha.
    + exfalso. apply Hnotin. rewrite (Hkey a (or_introl eq_refl) Ha).
      now apply in_map.
    + apply IH; auto.
Qed.

Lemma NoDup_map_filter {A K : Type} (key : A -> K) (t : A -> bool)
    (l : list A) :
  NoDup (map key l) -> NoDup (map key (filter t l)).
Proof.
  induction l as [ | a l IH]; simpl; intros Hnd; [constructor | ].
  inversion Hnd as [ | ? ? Hnotin Hnd']; subst.
  destruct (t a); simpl; [ | now apply IH ].
  constructor; [ | now apply IH ].
  intros Hin. apply Hnotin. apply in_map_iff in Hin as (x & Hx & Hf).
  apply filter_In in Hf as [Hf _]. apply in_map_iff. now exists x.
Qed.

Lemma NoDup_key_inj {A K : Type} (key : A -> K) (l : list A) (a b : A) :
  NoDup (map key l) -> In a l -> In b l -> key a = key b -> a = b.
Proof.
  induction l as [ | x l IH]; simpl; intros Hnd Ha Hb Hk; [contradiction | ].
  inversion Hnd as [ | ? ? Hnotin Hnd']; subst.
  destruct Ha as [-> | Ha], Hb as [-> | Hb]; auto.
  - exfalso. apply Hnotin. rewrite Hk. now apply in_map.
  - exfalso. apply Hnotin. rewrite <- Hk. now apply in_map.
Qed.

(** ** Rules of the assertions *)

Lemma hoare_conseq {A : Type} env (P P' : Db -> Prop) (m : M A)
    (Q Q' : Result A -> Db -> Prop) :
  hoare env P' m Q' ->
  (forall d, P d -> P' d) ->
  (forall r d, Q' r d -> Q r d) ->
  hoare env P m Q.
Proof. unfold hoare. intros H HP HQ st Hst. apply HQ, H, HP, Hst. Qed.

Lemma hoare_ret {A : Type} env (P : Db -> Prop) (a : A) Q :
  (forall d, P d -> Q (Ok a) d) -> hoare env P (ret a) Q.
Proof. unfold hoare, ret. simpl. auto. Qed.

Lemma hoare_res_status_json env (P : Db -> Prop) s j Q :
  (forall d, P d -> Q (Ok (mkResponse s j)) d) ->
  hoare env P (res_status_json s j) Q.
Proof. apply hoare_ret. Qed.

Lemma hoare_res_json env (P : Db -> Prop) j Q :
  (forall d, P d -> Q (Ok (mkResponse 200 j)) d) ->
  hoare env P (res_json j) Q.
Proof. apply hoare_ret. Qed.

Lemma hoare_lift {A : Type} env (P : Db -> Prop) (r : Result A) Q :
  (forall d, P d -> Q r d) -> hoare env P (lift r) Q.
Proof. unfold hoare, lift. simpl. auto. Qed.

Lemma hoare_bind {A C : Type} env (P : Db -> Prop) (m : M A) (k : A -> M C)
    (R : Result A -> Db -> Prop) (Q : Result C -> Db -> Prop) :
  hoare env P m R ->
  (forall a, hoare env (R (Ok a)) (k a) Q) ->
  (forall e d, R (Throw e) d -> Q (Throw e) d) ->
  hoare env P (bind m k) Q.
Proof.
  unfold hoare, bind. intros Hm Hk He st HP.
  specialize (Hm st HP). destruct (m env st) as [[a | e] st']; simpl in *.
  - now apply Hk.
  - now apply He.
Qed.

Lemma hoare_try_catch {A : Type} env (P : Db -> Prop) (m : M A)
    (h : Exn -> M A) (R Q : Result A -> Db -> Prop) :
  hoare env P m R ->
  (forall a d, R (Ok a) d -> Q (Ok a) d) ->
  (forall e, hoare env (R (Throw e)) (h e) Q) ->
  hoare env P (try_catch m h) Q.
Proof.
  unfold hoare, try_catch. intros Hm Hok Hh st HP.
  specialize (Hm st HP). destruct (m env st) as [[a | e] st']; simpl in *.
  - now apply Hok.
  - now apply Hh.
Qed.

Lemma hoare_pool_query {A : Type} env (P : Db -> Prop)
    (stmt : Z -> Db -> Result A * Db) Q :
  (forall d, P d ->
     Q (Throw ConnectionError) d /\
     Q (fst (stmt (env_now env) d)) (snd (stmt (env_now env) d))) ->
  hoare env P (pool_query stmt) Q.
Proof.
  unfold hoare, pool_query. intros H st HP. destruct (H _ HP) as [Hf Hs].
  destruct (st_faults st) as [ | [ | ] fs];
    try (destruct (stmt (env_now env) (st_db st)); exact Hs).
  exact Hf.
Qed.

(** Computations that leave the database alone. *)
Lemma hoare_bcrypt_hash_js env (P : Db -> Prop) data rounds Q :
  (forall r d, P d -> Q r d) -> hoare env P (bcrypt_hash_js data rounds) Q.
Proof.
  unfold hoare, bcrypt_hash_js. intros H st HP. destruct data; simpl; auto.
Qed.

Lemma hoare_bcrypt_compare_js env (P : Db -> Prop) data encrypted Q :
  (forall r d, P d -> Q r d) ->
  hoare env P (bcrypt_compare_js data encrypted) Q.
Proof.
  unfold hoare, bcrypt_compare_js. intros H st HP.
  destruct data; simpl; auto.
Qed.

Lemma hoare_getenv env (P : Db -> Prop) Q :
  (forall r d, P d -> Q r d) -> hoare env P getenv_GEMINI_API_KEY Q.
Proof. unfold hoare, getenv_GEMINI_API_KEY. simpl. auto. Qed.

Lemma hoare_fetch env (P : Db -> Prop) call Q :
  (forall r d, P d -> Q r d) -> hoare env P (fetch call) Q.
Proof.
  unfold hoare, fetch. intros H st HP. destruct (env_gemini env); simpl; auto.
Qed.

(** ** The statements on a consistent database *)

Lemma select_users_found (d : Db) (email : JsValue) (u : User) :
  consistent d -> In u (users d) -> pg_text email = Some (u_email u) ->
  select_users email d = (Ok [u], d).
Proof.
  intros Hd Hu He. unfold select_users. rewrite He. do 2 f_equal.
  apply (filter_key u_email).
  - apply Hd.
  - intros x _ Hx. now apply ustring_eqb_eq in Hx.
  - exact Hu.
  - apply ustring_eqb_refl.
Qed.


Lemma select_user_ids_users (email : JsValue) (d : Db) :
  select_user_ids email d =
  (bindR (fst (select_users email d)) (fun l => Ok (map u_id l)), d).
Proof.
  unfold select_user_ids, select_users. now destruct (pg_text email).
Qed.

Lemma select_user_ids_found (d : Db) (email : JsValue) (u : User) :
  consistent d -> In u (users d) -> pg_text email = Some (u_email u) ->
  select_user_ids email d = (Ok [u_id u], d).
Proof.
  intros Hd Hu He. rewrite select_user_ids_users.
  now rewrite (select_users_found d email u).
Qed.


(** Whatever the database, the ids selected are those of accounts with the
    email asked for. *)
Lemma select_user_ids_sound (d : Db) (email : JsValue) :
  exists ids,
    select_user_ids email d = (Ok ids, d) /\
    forall id, In id ids ->
      exists u, In u (users d) /\ u_id u = id /\
                pg_text email = Some (u_email u).
Proof.
  unfold select_user_ids. destruct (pg_text email) as [e | ].
  - eexists. split; [reflexivity | ]. intros id Hid.
    apply in_map_iff in Hid as (u & Hu & Hin).
    apply filter_In in Hin as [Hin He]. apply ustring_eqb_eq in He.
    exists u. repeat split; auto. now rewrite He.
  - exists []. split; [reflexivity | ]. intros id [].
Qed.

(** ** The statements keep the database consistent *)

Lemma consistent_empty : consistent empty_db.
Proof.
  constructor; simpl; try apply NoDup_nil; intros ? [].
Qed.

Lemma serial_inv (id i : Z) : serial id = Ok i -> i = id /\ in_int4 id = true.
Proof.
  unfold serial. destruct (in_int4 id); intros H; inversion H; auto.
Qed.

Lemma consistent_users_seq (d : Db) (s : Z) :
  consistent d -> users_id_seq d <= s ->
  consistent (mkDb (users d) (chats d) s (chats_id_seq d)).
Proof.
  intros [H1 H2 H3 H4 H5 H6 H7] Hs. constructor; simpl; auto.
  intros u Hu. destruct (H5 u Hu). split; [assumption | lia].
Qed.

Lemma consistent_chats_seq (d : Db) (s : Z) :
  consistent d -> chats_id_seq d <= s ->
  consistent (mkDb (users d) (chats d) (users_id_seq d) s).
Proof.
  intros [H1 H2 H3 H4 H5 H6 H7] Hs. constructor; simpl; auto.
  intros c Hc. destruct (H6 c Hc). split; [assumption | lia].
Qed.

Lemma NoDup_map_snoc {A K : Type} (key : A -> K) (l : list A) (a : A) :
  NoDup (map key l) -> ~ In (key a) (map key l) ->
  NoDup (map key (l ++ [a])).
Proof.
  intros Hnd Hnotin. rewrite map_app. apply NoDup_app; auto.
  - simpl. constructor; [intros [] | constructor].
  - intros k Hk [<- | []]. contradiction.
Qed.

Lemma insert_user_consistent (email password : JsValue) (d : Db) :
  consistent d -> consistent (snd (insert_user email password d)).
Proof.
  intros Hd. unfold insert_user, nextval.
  pose proof (consistent_users_seq d (users_id_seq d + 1) Hd ltac:(lia))
    as Hbump.
  destruct (serial (users_id_seq d + 1)) as [i | ] eqn:Hi; simpl; auto.
  apply serial_inv in Hi as [-> Hrange].
  destruct (bindR (varchar255 (pg_text email)) not_null) as [e | ] eqn:Hfit;
    simpl; auto.
  destruct (bindR (varchar255 (pg_text password)) not_null) as [p | ];
    simpl; auto.
  destruct (existsb _ (users d)) eqn:Hex; simpl; auto.
  assert (toWellFormed e = e) as Htext.
  { destruct (pg_text email) as [e0 | ] eqn:Hmail; simpl in Hfit;
      [ | discriminate ].
    destruct (char_length e0 <=? 255)%nat; simpl in Hfit; [ | discriminate ].
    injection Hfit as <-. now apply (pg_text_well_formed email). }
  destruct Hd as [H1 H2 H3 H4 H5 H6 H7]. constructor; simpl; auto.
  - apply NoDup_map_snoc; auto. simpl. intros Hin.
    apply in_map_iff in Hin as (u & Hid & Hu). destruct (H5 u Hu). lia.
  - apply NoDup_map_snoc; auto. simpl. intros Hin.
    apply in_map_iff in Hin as (u & He & Hu).
    assert (existsb (fun u => ustring_eqb (u_email u) e) (users d) = true)
      as Habs.
    { apply existsb_exists. exists u. split; auto.
      now apply ustring_eqb_eq. }
    congruence.
  - intros c Hc. destruct (H4 c Hc) as (u & Hu & Hrest).
    exists u. split; [apply in_or_app; now left | exact Hrest].
  - intros u Hu. apply in_app_or in Hu as [Hu | [<- | []]]; simpl.
    + destruct (H5 u Hu). split; [assumption | lia].
    + split; [assumption | lia].
  - intros u Hu. apply in_app_or in Hu as [Hu | [<- | []]]; simpl; auto.
Qed.

Lemma insert_chat_consistent (n : Z) (chatTitle userInput adviceOutput : JsValue)
    (now : Z) (d : Db) :
  consistent d ->
  (forall u, In u (users d) -> u_id u = n -> u_email u <> []) ->
  consistent
    (snd (insert_chat (JNum n) chatTitle userInput adviceOutput now d)).
Proof.
  intros Hd Hn. unfold insert_chat, nextval.
  pose proof (consistent_chats_seq d (chats_id_seq d + 1) Hd ltac:(lia))
    as Hbump.
  destruct (serial (chats_id_seq d + 1)) as [i | ] eqn:Hi; simpl; auto.
  apply serial_inv in Hi as [-> Hrange].
  destruct (in_int4 n); simpl; auto.
  destruct (varchar255 (pg_text chatTitle)) as [t | ]; simpl; auto.
  destruct (not_null (pg_text userInput)) as [q | ]; simpl; auto.
  destruct (not_null (pg_text adviceOutput)) as [a | ]; simpl; auto.
  destruct (existsb _ (users d)) eqn:Hex; simpl; auto.
  apply existsb_exists in Hex as (u & Hu & Hid). apply Z.eqb_eq in Hid.
  destruct Hd as [H1 H2 H3 H4 H5 H6 H7]. constructor; simpl; auto.
  - apply NoDup_map_snoc; auto. simpl. intros Hin.
    apply in_map_iff in Hin as (c & Hid' & Hc). destruct (H6 c Hc). lia.
  - intros c Hc. apply in_app_or in Hc as [Hc | [<- | []]]; simpl; auto.
    exists u. auto.
  - intros c Hc. apply in_app_or in Hc as [Hc | [<- | []]]; simpl.
    + destruct (H6 c Hc). split; [assumption | lia].
    + split; [assumption | lia].
Qed.

Lemma consistent_same_keys (d : Db) (table : list Chat) :
  consistent d ->
  map c_id table = map c_id (chats d) ->
  map c_user_id table = map c_user_id (chats d) ->
  consistent (mkDb (users d) table (users_id_seq d) (chats_id_seq d)).
Proof.
  intros [H1 H2 H3 H4 H5 H6 H7] Hid Huid. constructor; simpl; auto.
  - now rewrite Hid.
  - intros c Hc. apply (in_map c_user_id) in Hc. rewrite Huid in Hc.
    apply in_map_iff in Hc as (c0 & Heq & Hc0).
    destruct (H4 c0 Hc0) as (u & Hu & Hown & He).
    exists u. repeat split; auto. congruence.
  - intros c Hc. apply (in_map c_id) in Hc. rewrite Hid in Hc.
    apply in_map_iff in Hc as (c0 & Heq & Hc0).
    rewrite <- Heq. apply H6, Hc0.
Qed.

Lemma assign_identity (a : Assign) (c c' : Chat) :
  assign a c = Ok c' ->
  c_id c' = c_id c /\ c_user_id c' = c_user_id c /\
  c_created_at c' = c_created_at c.
Proof.
  destruct a as [[ | | ] v | t]; simpl.
  - intros H. inversion H. auto.
  - destruct v; simpl; intros H; inversion H. auto.
  - destruct v; simpl; intros H; inversion H. auto.
  - intros H. inversion H. auto.
Qed.

Lemma assign_all_identity (l : list Assign) (c c' : Chat) :
  assign_all l c = Ok c' ->
  c_id c' = c_id c /\ c_user_id c' = c_user_id c /\
  c_created_at c' = c_created_at c.
Proof.
  revert c. induction l as [ | a l IH]; simpl; intros c H.
  - inversion H. auto.
  - destruct (assign a c) as [c1 | ] eqn:Ha; simpl in H; [ | discriminate ].
    apply assign_identity in Ha as (? & ? & ?).
    apply IH in H as (? & ? & ?). repeat split; congruence.
Qed.

Lemma update_rows_keys (sel : Chat -> bool) (f : Chat -> Result Chat)
    (l table returning : list Chat) :
  (forall c c', f c = Ok c' ->
     c_id c' = c_id c /\ c_user_id c' = c_user_id c) ->
  update_rows sel f l = Ok (table, returning) ->
  map c_id table = map c_id l /\ map c_user_id table = map c_user_id l.
Proof.
  intros Hf. revert table returning.
  induction l as [ | c l IH]; simpl; intros table returning H.
  - inversion H. auto.
  - destruct (sel c).
    + destruct (f c) as [c' | ] eqn:Hc; simpl in H; [ | discriminate ].
      destruct (update_rows sel f l) as [[t r] | ]; simpl in H;
        [ | discriminate ].
      inversion H; subst. simpl. destruct (IH _ _ eq_refl) as [-> ->].
      destruct (Hf c c' Hc) as [-> ->]. auto.
    + destruct (update_rows sel f l) as [[t r] | ]; simpl in H;
        [ | discriminate ].
      inversion H; subst. simpl. destruct (IH _ _ eq_refl) as [-> ->]. auto.
Qed.

Lemma update_chats_consistent (stmt : UpdateChats) (values : list JsValue)
    (now : Z) (d : Db) :
  consistent d -> consistent (snd (update_chats stmt values now d)).
Proof.
  intros Hd. unfold update_chats.
  match goal with
  | |- context [match ?r with Ok _ => _ | Throw _ => _ end] =>
      destruct r as [[table returning] | ] eqn:Hr
  end; simpl; auto.
  destruct (negb _); [discriminate | ].
  destruct (bindR (placeholder values (where_id stmt)) pg_int4) as [i | ];
    simpl in Hr; [ | discriminate ].
  destruct (bindR (placeholder values (where_user_id stmt)) pg_int4)
    as [uid | ]; simpl in Hr; [ | discriminate ].
  destruct (bind_items values now (set_items stmt)) as [sets | ];
    simpl in Hr; [ | discriminate ].
  apply update_rows_keys in Hr as [Hid Huid].
  - now apply consistent_same_keys.
  - intros c c' Hc. apply assign_all_identity in Hc as (? & ? & _). auto.
Qed.

Lemma delete_chat_consistent (id userId : JsValue) (d : Db) :
  consistent d -> consistent (snd (delete_chat id userId d)).
Proof.
  intros Hd. unfold delete_chat.
  match goal with
  | |- context [match ?r with Ok _ => _ | Throw _ => _ end] =>
      destruct r as [sel | ]
  end; simpl; auto.
  destruct Hd as [H1 H2 H3 H4 H5 H6 H7]. constructor; simpl; auto.
  - now apply NoDup_map_filter.
  - intros c Hc. apply filter_In in Hc as [Hc _]. auto.
  - intros c Hc. apply filter_In in Hc as [Hc _]. auto.
Qed.

(** ** Every handler keeps the database consistent *)

Lemma select_users_db email d : snd (select_users email d) = d.
Proof. unfold select_users. now destruct (pg_text email). Qed.

Lemma select_user_ids_db email d : snd (select_user_ids email d) = d.
Proof. unfold select_user_ids. now destruct (pg_text email). Qed.

Lemma select_chats_db userId d : snd (select_chats userId d) = d.
Proof. reflexivity. Qed.

Lemma select_chat_db id userId d : snd (select_chat id userId d) = d.
Proof. reflexivity. Qed.

Ltac keep_db :=
  rewrite ?select_users_db, ?select_user_ids_db, ?select_chats_db,
    ?select_chat_db;
  auto using insert_user_consistent, update_chats_consistent,
    delete_chat_consistent.

Ltac keep :=
  unfold kept;
  repeat first
    [ apply hoare_res_status_json; intros; assumption
    | apply hoare_res_json; intros; assumption
    | apply hoare_lift; intros; assumption
    | apply hoare_bcrypt_hash_js; intros; assumption
    | apply hoare_bcrypt_compare_js; intros; assumption
    | apply hoare_getenv; intros; assumption
    | apply hoare_fetch; intros; assumption
    | apply hoare_pool_query; intros ? ?; split; [assumption | keep_db]
    | eapply hoare_try_catch with (R := kept); unfold kept;
        [ | intros; assumption | intros ? ]
    | eapply hoare_bind with (R := kept); unfold kept;
        [ | intros ? | intros; assumption ]
    | match goal with
      | |- hoare _ _ (if ?b then _ else _) _ => destruct b
      | |- hoare _ _ (match ?x with _ => _ end) _ => destruct x
      | |- hoare _ _ (let '(_, _) := ?x in _) _ => destruct x
      end ].

Lemma post_signup_consistent env req :
  hoare env consistent (post_signup req) kept.
Proof. unfold post_signup. keep. Qed.

Lemma post_login_consistent env req :
  hoare env consistent (post_login req) kept.
Proof. unfold post_login. keep. Qed.

Lemma post_api_generate_consistent env req :
  hoare env consistent (post_api_generate req) kept.
Proof. unfold post_api_generate. keep. Qed.

Lemma get_api_chats_consistent env req :
  hoare env consistent (get_api_chats req) kept.
Proof. unfold get_api_chats. keep. Qed.

Lemma get_api_chats_id_consistent env req :
  hoare env consistent (get_api_chats_id req) kept.
Proof. unfold get_api_chats_id. keep. Qed.

Lemma put_api_chats_id_consistent env req :
  hoare env consistent (put_api_chats_id req) kept.
Proof. unfold put_api_chats_id. keep. Qed.

Lemma delete_api_chats_id_consistent env req :
  hoare env consistent (delete_api_chats_id req) kept.
Proof. unfold delete_api_chats_id. keep. Qed.

(** Creation is the one place where the invariant needs a fact about the
    request: the account found has the email of the request, which the
    handler has checked to be truthy. *)
Lemma post_api_chats_consistent env req :
  hoare env consistent (post_api_chats req) kept.
Proof.
  unfold post_api_chats.
  eapply hoare_try_catch with (R := kept); unfold kept;
    [ | intros; assumption | intros ?; keep ].
  destruct (truthy (body_email req)) eqn:Hemail; simpl; [ | keep ].
  destruct (negb (truthy (body_userInput req)) ||
            negb (truthy (body_adviceOutput req))); [keep | ].
  eapply hoare_bind with
    (R := fun r d =>
            consistent d /\
            forall ids, r = Ok ids -> forall id, In id ids ->
              forall u, In u (users d) -> u_id u = id -> u_email u <> []).
  - apply hoare_pool_query. intros d Hd. split; [split; [assumption | discriminate] | ].
    destruct (select_user_ids_sound d (body_email req)) as (ids & -> & Hids).
    simpl. split; [assumption | ]. intros ids' [= <-] id Hid u Hu Hu'.
    destruct (Hids id Hid) as (u0 & Hu0 & Hid0 & He).
    assert (u = u0) as ->.
    { apply (NoDup_key_inj u_id (users d)); auto; [apply Hd | congruence]. }
    destruct (truthy_text _ Hemail) as (s & Hs & Hne). congruence.
  - intros [ | userId ids].
    + apply hoare_res_status_json. now intros d [Hd _].
    + eapply hoare_bind with
        (R := fun _ d =>
                consistent d /\
                forall u, In u (users d) -> u_id u = userId -> u_email u <> []).
      * apply hoare_lift. intros d [Hd H]. split; [assumption | ].
        apply (H _ eq_refl). now left.
      * intros t. eapply hoare_bind with (R := kept); unfold kept.
        -- apply hoare_pool_query. intros d [Hd H]. split; [assumption | ].
           now apply insert_chat_consistent.
        -- intros rows. keep.
        -- intros; assumption.
      * now intros e d [Hd _].
  - now intros e d [Hd _].
Qed.

Lemma app_consistent env r req : hoare env consistent (app r req) kept.
Proof.
  destruct r; simpl.
  - apply post_signup_consistent.
  - apply post_login_consistent.
  - apply post_api_generate_consistent.
  - apply get_api_chats_consistent.
  - apply get_api_chats_id_consistent.
  - apply post_api_chats_consistent.
  - apply put_api_chats_id_consistent.
  - apply delete_api_chats_id_consistent.
Qed.

Lemma serve_consistent r req env faults d :
  consistent d -> consistent (st_db (snd (serve r req env faults d))).
Proof.
  intros Hd. unfold serve.
  apply (app_consistent env r req (mkSt d faults [])). exact Hd.
Qed.

(** The invariant of the application. *)
Lemma reachable_consistent d : reachable d -> consistent d.
Proof.
  induction 1 as [ | d r req env faults _ IH].
  - apply consistent_empty.
  - now apply serve_consistent.
Qed.

Lemma reachable_replay script d : reachable d -> reachable (replay script d).
Proof.
  revert d. induction script as [ | [[r req] env] rest IH]; simpl; intros d Hd.
  - exact Hd.
  - apply IH. now apply reachable_serve.
Qed.

(** ** Running a handler step by step *)

Lemma pool_query_run {A : Type} (stmt : Z -> Db -> Result A * Db) env st :
  pool_query stmt env st =
  if hd false (st_faults st)
  then (Throw ConnectionError, mkSt (st_db st) (tl (st_faults st)) (st_calls st))
  else (fst (stmt (env_now env) (st_db st)),
        mkSt (snd (stmt (env_now env) (st_db st))) (tl (st_faults st))
             (st_calls st)).
Proof.
  unfold pool_query. destruct (st_faults st) as [ | [ | ] fs]; simpl;
    try reflexivity; now destruct (stmt (env_now env) (st_db st)).
Qed.

Lemma quiet_hd faults : quiet faults -> hd false faults = false.
Proof. destruct 1; simpl; auto. Qed.

Lemma quiet_tl faults : quiet faults -> quiet (tl faults).
Proof. destruct 1; simpl; auto. constructor. Qed.

Lemma pool_query_quiet {A : Type} (stmt : Z -> Db -> Result A * Db) env d
    faults calls :
  quiet faults ->
  pool_query stmt env (mkSt d faults calls) =
  (fst (stmt (env_now env) d),
   mkSt (snd (stmt (env_now env) d)) (tl faults) calls).
Proof.
  intros Hq. rewrite pool_query_run. simpl. now rewrite (quiet_hd _ Hq).
Qed.

(** ** The advice proxy *)

(** C8.  A request to generate advice whose [userInput] is empty (or
    missing, or otherwise falsy) is answered 400 with the error "userInput
    is required", and the handler leaves the state as it found it: in
    particular no call to the provider is added to the log. *)
Theorem generate_without_input_calls_nobody req env st :
  truthy (body_userInput req) = false ->
  post_api_generate req env st =
    (Ok (mkResponse 400 (Error "userInput is required")), st) /\
  st_calls (snd (post_api_generate req env st)) = st_calls st.
Proof.
  intros H. unfold post_api_generate, try_catch. rewrite H. simpl. auto.
Qed.

(** With an input and a key, exactly one call goes out, carrying both. *)
Lemma generate_with_input_calls_once req env st key :
  truthy (body_userInput req) = true ->
  GEMINI_API_KEY env = Some key -> key <> "" ->
  st_calls (snd (post_api_generate req env st)) =
  (st_calls st ++ [mkGeminiCall key (body_userInput req)])%list.
Proof.
  intros Hin Hkey Hne. unfold post_api_generate, try_catch, bind.
  rewrite Hin. cbn [negb]. unfold getenv_GEMINI_API_KEY. rewrite Hkey.
  apply String.eqb_neq in Hne. rewrite truthy_key, Hne. cbn [negb].
  unfold fetch. destruct (env_gemini env) as [m | s [data | e]]; simpl;
    try reflexivity.
  destruct (fetch_ok s); simpl; [ | reflexivity ].
  destruct (no_candidates data); reflexivity.
Qed.

(** Without a key the handler answers 500 and calls nobody. *)
Lemma generate_without_key req env st :
  truthy (body_userInput req) = true ->
  GEMINI_API_KEY env = None ->
  post_api_generate req env st =
  (Ok (mkResponse 500 (Error "API key not configured")), st).
Proof.
  intros Hin Hkey. unfold post_api_generate, try_catch, bind.
  rewrite Hin. cbn [negb]. unfold getenv_GEMINI_API_KEY. now rewrite Hkey.
Qed.

(** ** Signup *)

Lemma insert_user_duplicate email password d u :
  In u (users d) -> pg_text email = Some (u_email u) ->
  exists e, fst (insert_user email password d) = Throw e.
Proof.
  intros Hu He. unfold insert_user.
  destruct (serial (nextval (users_id_seq d))) as [i | e]; simpl;
    [ | now exists e ].
  destruct (bindR (varchar255 (pg_text email)) not_null) as [s | e] eqn:Hs;
    simpl; [ | now exists e ].
  destruct (bindR (varchar255 (pg_text password)) not_null) as [p | e];
    simpl; [ | now exists e ].
  assert (s = u_email u) as ->.
  { rewrite He in Hs. simpl in Hs.
    destruct (char_length (u_email u) <=? 255)%nat; simpl in Hs;
      congruence. }
  assert (existsb (fun x => ustring_eqb (u_email x) (u_email u)) (users d)
          = true) as ->.
  { apply existsb_exists. exists u. split; auto. apply ustring_eqb_refl. }
  now eexists.
Qed.

(** What the signup handler answers, from its [try] on. *)
Lemma post_signup_answers req env st :
  (fst (post_signup req env st) =
     Ok (mkResponse 201 (Message "User registered successfully")) \/
   fst (post_signup req env st) =
     Ok (mkResponse 400 (Error "User already exists or invalid data"))) /\
  (forall resp, fst (post_signup req env st) = Ok resp -> status resp <> 500) /\
  ((exists u, In u (users (st_db st)) /\
              pg_text (body_email req) = Some (u_email u)) ->
   fst (post_signup req env st) =
     Ok (mkResponse 400 (Error "User already exists or invalid data"))) /\
  ((forall s, body_password req <> JStr s) ->
   fst (post_signup req env st) =
     Ok (mkResponse 400 (Error "User already exists or invalid data"))) /\
  (hd false (st_faults st) = true ->
   fst (post_signup req env st) =
     Ok (mkResponse 400 (Error "User already exists or invalid data"))).
Proof.
  assert (forall s,
    body_password req = JStr s ->
    post_signup req env st =
    match pool_query (fun _ => insert_user (body_email req)
                       (JStr (bcrypt_hash s 10 (env_salt env)))) env st with
    | (Ok _, st') =>
        (Ok (mkResponse 201 (Message "User registered successfully")), st')
    | (Throw _, st') =>
        (Ok (mkResponse 400 (Error "User already exists or invalid data")), st')
    end) as Hstr.
  { intros s Hs. unfold post_signup, try_catch, bind, bcrypt_hash_js.
    rewrite Hs. now destruct (pool_query _ env st) as [[ | ] ?]. }
  assert ((forall s, body_password req <> JStr s) ->
    fst (post_signup req env st) =
      Ok (mkResponse 400 (Error "User already exists or invalid data")))
    as Hnot.
  { intros Hs. unfold post_signup, try_catch, bind, bcrypt_hash_js.
    destruct (body_password req) as [ | | b | n | s]; try reflexivity.
    now destruct (Hs s). }
  assert (fst (post_signup req env st) =
            Ok (mkResponse 201 (Message "User registered successfully")) \/
          fst (post_signup req env st) =
            Ok (mkResponse 400 (Error "User already exists or invalid data")))
    as Htwo.
  { destruct (body_password req) as [ | | b | n | s] eqn:Hp;
      try (right; apply Hnot; intros s' Hs'; discriminate Hs').
    rewrite (Hstr s eq_refl).
    destruct (pool_query _ env st) as [[ | ] ?]; auto. }
  split; [exact Htwo | ]. split; [ | split; [ | split; [exact Hnot | ]]].
  - intros resp Hresp. destruct Htwo as [H | H]; rewrite H in Hresp;
      inversion Hresp; simpl; lia.
  - intros (u & Hu & He).
    destruct (body_password req) as [ | | b | n | s] eqn:Hp;
      try (apply Hnot; intros s' Hs'; discriminate Hs').
    rewrite (Hstr s eq_refl), pool_query_run.
    destruct (hd false (st_faults st)); [reflexivity | ].
    destruct (insert_user_duplicate (body_email req)
                (JStr (bcrypt_hash s 10 (env_salt env))) (st_db st) u Hu He)
      as (e & ->).
    reflexivity.
  - intros Hf.
    destruct (body_password req) as [ | | b | n | s] eqn:Hp;
      try (apply Hnot; intros s' Hs'; discriminate Hs').
    rewrite (Hstr s eq_refl), pool_query_run, Hf. reflexivity.
Qed.

(** C10, as the code has it.  For a signup whose [req.body] is an object,
    the answer is either 201 or 400 with the one fixed message, and so never
    500.  The failures all take the 400: an email that is already
    registered, a password that is not a string (the hash step throws), and
    a store that cannot be reached. *)
Theorem signup_failures_are_all_400 a env st :
  has_body a = true ->
  (fst (arrive POST_signup a env st) =
     Ok (mkResponse 201 (Message "User registered successfully")) \/
   fst (arrive POST_signup a env st) =
     Ok (mkResponse 400 (Error "User already exists or invalid data"))) /\
  (forall resp,
     fst (arrive POST_signup a env st) = Ok resp -> status resp <> 500) /\
  ((exists u, In u (users (st_db st)) /\
              pg_text (body_email (request a)) = Some (u_email u)) ->
   fst (arrive POST_signup a env st) =
     Ok (mkResponse 400 (Error "User already exists or invalid data"))) /\
  ((forall s, body_password (request a) <> JStr s) ->
   fst (arrive POST_signup a env st) =
     Ok (mkResponse 400 (Error "User already exists or invalid data"))) /\
  (hd false (st_faults st) = true ->
   fst (arrive POST_signup a env st) =
     Ok (mkResponse 400 (Error "User already exists or invalid data"))).
Proof.
  intros Hbody.
  assert (arrive POST_signup a env st = post_signup (request a) env st) as ->.
  { unfold arrive, destructure_body, bind, ret. now rewrite Hbody. }
  apply post_signup_answers.
Qed.

(** ** Login *)


(** X16.  With the store reachable, a login for a registered email whose
    password is missing, or is not a string, is answered 500 "Server error"
    (and not 400 or 401): the comparison throws.  Nothing is written. *)
Lemma login_without_password req env faults d u :
  reachable d -> quiet faults ->
  In u (users d) -> pg_text (body_email req) = Some (u_email u) ->
  (forall p, body_password req <> JStr p) ->
  serve POST_login req env faults d =
    (Ok (mkResponse 500 (Error "Server error")), mkSt d (tl faults) []).
Proof.
  intros Hd Hq Hu He Hp. apply reachable_consistent in Hd.
  unfold serve, app, post_login, try_catch, bind.
  rewrite (pool_query_quiet _ env d faults [] Hq).
  rewrite (select_users_found d _ u Hd Hu He). simpl.
  unfold bcrypt_compare_js.
  destruct (body_password req) as [ | | b | n | p]; try reflexivity.
  now destruct (Hp p).
Qed.

(** ** Ordering *)

Lemma insert_desc_perm c l : Permutation (c :: l) (insert_desc c l).
Proof.
  induction l as [ | x l IH]; simpl; [reflexivity | ].
  destruct (c_updated_at x <? c_updated_at c); [reflexivity | ].
  rewrite perm_swap. now apply perm_skip.
Qed.

Lemma order_by_perm l : Permutation l (order_by_updated_at_desc l).
Proof.
  induction l as [ | c l IH]; simpl; [reflexivity | ].
  rewrite <- insert_desc_perm. now apply perm_skip.
Qed.




(** ** Listing and fetching chats *)

#[local] Arguments select_chats : simpl never.
#[local] Arguments select_chat : simpl never.
#[local] Arguments insert_chat : simpl never.
#[local] Arguments update_chats : simpl never.
#[local] Arguments delete_chat : simpl never.
#[local] Arguments pg_int4 : simpl never.

Lemma filter_owner u l :
  filter (fun c => same_id (Some (u_id u)) (c_user_id c)) l = filter (owns u) l.
Proof.
  apply filter_ext. intros c. unfold owns. simpl. apply Z.eqb_sym.
Qed.

Lemma select_chats_of d u :
  consistent d -> In u (users d) ->
  select_chats (JNum (u_id u)) d =
  (Ok (map chat_row (order_by_updated_at_desc (filter (owns u) (chats d)))), d).
Proof.
  intros Hd Hu. unfold select_chats.
  destruct (users_id_range d Hd u Hu) as [Hr _].
  rewrite (pg_int4_JNum _ Hr). unfold bindR. now rewrite filter_owner.
Qed.


(** An empty or missing email is refused before the store is asked. *)
Lemma list_without_email req env faults d :
  truthy (query_email req) = false ->
  serve GET_api_chats req env faults d =
    (Ok (mkResponse 400 (Error "Email is required")), mkSt d faults []).
Proof.
  intros He. unfold serve, app, get_api_chats, try_catch. now rewrite He.
Qed.

Lemma in_select_chats d u row :
  In row (map chat_row (order_by_updated_at_desc (filter (owns u) (chats d)))) ->
  exists c, In c (chats d) /\ chat_row c = row /\ c_user_id c = u_id u.
Proof.
  intros H. apply in_map_iff in H as (c & Hrow & Hc).
  apply (Permutation_in _ (Permutation_sym (order_by_perm _))) in Hc.
  apply filter_In in Hc as [Hc Hown]. apply Z.eqb_eq in Hown.
  exists c. auto.
Qed.

Lemma list_rows_are_owned req env faults d u resp st row :
  consistent d -> In u (users d) ->
  pg_text (query_email req) = Some (u_email u) ->
  serve GET_api_chats req env faults d = (Ok resp, st) ->
  In row (returned_rows (json resp)) ->
  exists c, In c (chats d) /\ chat_row c = row /\ c_user_id c = u_id u.
Proof.
  intros Hd Hu Hmail. unfold serve, app, get_api_chats, try_catch, bind.
  destruct (truthy (query_email req)); simpl;
    [ | intros [= <- _] [] ].
  rewrite pool_query_run. simpl. destruct (hd false faults); simpl;
    [ intros [= <- _] [] | ].
  rewrite (select_user_ids_found d _ u Hd Hu Hmail). simpl.
  rewrite pool_query_run. cbn [st_db st_faults st_calls].
  rewrite (select_chats_of d u Hd Hu).
  destruct (hd false (tl faults)); simpl; [ intros [= <- _] [] | ].
  intros [= <- _]. simpl. apply in_select_chats.
Qed.

Lemma get_rows_are_owned req env faults d u resp st row :
  consistent d -> In u (users d) ->
  pg_text (query_email req) = Some (u_email u) ->
  serve GET_api_chats_id req env faults d = (Ok resp, st) ->
  In row (returned_rows (json resp)) ->
  exists c, In c (chats d) /\ chat_row c = row /\ c_user_id c = u_id u.
Proof.
  intros Hd Hu Hmail. unfold serve, app, get_api_chats_id, try_catch, bind.
  destruct (truthy (query_email req)); simpl;
    [ | intros [= <- _] [] ].
  rewrite pool_query_run. simpl. destruct (hd false faults); simpl;
    [ intros [= <- _] [] | ].
  rewrite (select_user_ids_found d _ u Hd Hu Hmail). simpl.
  rewrite pool_query_run. cbn [st_db st_faults st_calls].
  destruct (hd false (tl faults)); [ simpl; intros [= <- _] [] | ].
  unfold select_chat.
  destruct (users_id_range d Hd u Hu) as [Hr _].
  rewrite (pg_int4_JNum _ Hr).
  destruct (pg_int4 (JStr (params_id req))) as [i | e]; simpl;
    [ | intros [= <- _] [] ].
  match goal with
  | |- context [map chat_row ?found] => destruct found as [ | c l] eqn:Hl
  end; simpl; [ intros [= <- _] [] | ].
  intros [= <- _]. simpl. intros [<- | []].
  assert (In c (c :: l)) as Hc by now left.
  rewrite <- Hl in Hc. apply filter_In in Hc as [Hc Hsel].
  apply andb_true_iff in Hsel as [_ Hown]. simpl in Hown.
  apply Z.eqb_eq in Hown. exists c. auto.
Qed.

(** C1.  Whatever the faults of the store, every chat row that the list or
    the get handler returns for the email of an account A is the row of a
    chat that A owns, and no chat owned by another account B has that id. *)
Theorem list_and_get_return_only_the_accounts_chats
    req env faults d A resp st :
  reachable d -> In A (users d) ->
  pg_text (query_email req) = Some (u_email A) ->
  serve GET_api_chats req env faults d = (Ok resp, st) \/
  serve GET_api_chats_id req env faults d = (Ok resp, st) ->
  forall row, In row (returned_rows (json resp)) ->
    (exists c, In c (chats d) /\ chat_row c = row /\ c_user_id c = u_id A) /\
    (forall B' c, In B' (users d) -> B' <> A -> In c (chats d) ->
                  c_user_id c = u_id B' -> r_id row <> c_id c).
Proof.
  intros Hd HA Hmail Hserve row Hrow. apply reachable_consistent in Hd.
  assert (exists c, In c (chats d) /\ chat_row c = row /\ c_user_id c = u_id A)
    as (c & Hc & Hcrow & Hown).
  { destruct Hserve as [H | H].
    - eapply list_rows_are_owned; eauto.
    - eapply get_rows_are_owned; eauto. }
  split; [now exists c | ].
  intros B' c' HB Hneq Hc' Hown' Hid. apply Hneq.
  assert (c' = c) as ->.
  { apply (NoDup_key_inj c_id (chats d)); auto; [apply Hd | ].
    rewrite <- Hid, <- Hcrow. reflexivity. }
  apply (NoDup_key_inj u_id (users d)); auto; [apply Hd | congruence].
Qed.

(** ** The derived title *)

Lemma default_title_length (s : ustring) :
  (length (default_title s) <= 53)%nat.
Proof.
  unfold default_title. destruct (50 <? length s)%nat eqn:Hlen.
  - rewrite length_app, length_firstn.
    change (length (utf16 "...")) with 3%nat. lia.
  - apply Nat.ltb_ge in Hlen. lia.
Qed.

(** Whatever the input, the derived title fits the column. *)
Lemma default_title_fits (s : ustring) :
  (char_length (toWellFormed (default_title s)) <= 255)%nat.
Proof.
  pose proof (char_length_le (toWellFormed (default_title s))) as H.
  rewrite toWellFormed_length in H.
  pose proof (default_title_length s). lia.
Qed.




(** ** Creating a chat *)

(** The expression of the source computes the title of the
    specification. *)
Lemma chatTitle_default (title : JsValue) (s : ustring) :
  truthy title = false ->
  chatTitle title (JStr s) = Ok (JStr (default_title s)).
Proof.
  intros Ht. unfold chatTitle, default_title, js_substring, js_length, bindR.
  rewrite Ht. change (50 - 0)%nat with 50%nat. change (skipn 0 s) with s.
  replace (50 <? Z.of_nat (length s)) with (50 <? length s)%nat.
  - destruct (50 <? length s)%nat eqn:Hlen; [reflexivity | ].
    apply Nat.ltb_ge in Hlen.
    now rewrite (firstn_all2 s Hlen), app_nil_r.
  - destruct (50 <? length s)%nat eqn:Hlen; symmetry.
    + apply Nat.ltb_lt in Hlen. apply Z.ltb_lt. lia.
    + apply Nat.ltb_ge in Hlen. apply Z.ltb_ge. lia.
Qed.

Lemma chatTitle_falsy (title userInput : JsValue) :
  truthy title = false ->
  chatTitle title userInput = chatTitle JUndefined userInput.
Proof. intros Ht. unfold chatTitle. now rewrite Ht. Qed.



(** ** Updating a chat *)

Lemma update_rows_ext sel (f g : Chat -> Result Chat) l :
  (forall c, f c = g c) -> update_rows sel f l = update_rows sel g l.
Proof.
  intros Hfg. induction l as [ | c l IH]; simpl; [reflexivity | ].
  now rewrite IH, Hfg.
Qed.

Lemma update_rows_unselected sel f l :
  (forall x, In x l -> sel x = false) -> update_rows sel f l = Ok (l, []).
Proof.
  induction l as [ | c l IH]; simpl; intros H; [reflexivity | ].
  rewrite (H c) by now left. rewrite IH; [reflexivity | ].
  intros x Hx. apply H. now right.
Qed.

Lemma map_unselected {A : Type} (sel : A -> bool) (c' : A) (l : list A) :
  (forall x, In x l -> sel x = false) ->
  map (fun x => if sel x then c' else x) l = l.
Proof.
  induction l as [ | c l IH]; simpl; intros H; [reflexivity | ].
  rewrite (H c) by now left. f_equal. apply IH.
  intros x Hx. apply H. now right.
Qed.

(** When the WHERE clause selects one row of a table with unique ids, the
    statement rewrites that row and returns it. *)
Lemma update_rows_one sel f l c :
  NoDup (map c_id l) -> In c l -> sel c = true ->
  (forall x, In x l -> sel x = true -> c_id x = c_id c) ->
  update_rows sel f l =
  let? c' := f c in Ok (map (fun x => if sel x then c' else x) l, [c']).
Proof.
  induction l as [ | x l IH]; simpl; intros Hnd Hin Hsel Hkey;
    [contradiction | ].
  inversion Hnd as [ | ? ? Hnotin Hnd']; subst.
  destruct Hin as [-> | Hin].
  - rewrite Hsel.
    assert (forall y, In y l -> sel y = false) as Hrest.
    { intros y Hy. destruct (sel y) eqn:Hy'; [ | reflexivity ].
      exfalso. apply Hnotin. rewrite <- (Hkey y (or_intror Hy) Hy').
      now apply in_map. }
    rewrite (update_rows_unselected sel f l Hrest).
    destruct (f c) as [c' | e]; simpl; [ | reflexivity ].
    now rewrite (map_unselected sel c' l Hrest).
  - assert (sel x = false) as ->.
    { destruct (sel x) eqn:Hx; [ | reflexivity ].
      exfalso. apply Hnotin. rewrite (Hkey x (or_introl eq_refl) Hx).
      now apply in_map. }
    rewrite IH; auto. now destruct (f c).
Qed.

(** The statement the handler assembles, with its numbered placeholders and
    its parameter array, is the update the specification describes. *)
Lemma put_statement_refines (title userInput adviceOutput : JsValue)
    (id : ustring) (userId now : Z) (d : Db) :
  let '(updates, values, paramCount) :=
    push_if_defined col_advice_output adviceOutput
      (push_if_defined col_user_input userInput
         (push_if_defined col_title title ([], [], 1%nat))) in
  (length updates =? 0)%nat = false ->
  update_chats
    (mkUpdateChats (updates ++ [SetUpdatedAt]) paramCount (S paramCount))
    (values ++ [JStr id; JNum userId]) now d =
  update_where title userInput adviceOutput id userId now d.
Proof.
  unfold push_if_defined, update_where, updated.
  destruct (defined title) eqn:Ht, (defined userInput) eqn:Hui,
    (defined adviceOutput) eqn:Hao; simpl; try discriminate; intros _;
    unfold update_chats; simpl;
    destruct (pg_int4 (JStr id)) as [i | e]; simpl; try reflexivity;
    destruct (pg_int4 (JNum userId)) as [uid | e]; simpl; try reflexivity;
    try (destruct (varchar255 (pg_text title)) as [t | e]; simpl;
         [ | reflexivity ]);
    (erewrite update_rows_ext; [reflexivity | ]);
    intros c; simpl;
    try (destruct (not_null (pg_text userInput)); simpl; [ | reflexivity ]);
    try (destruct (not_null (pg_text adviceOutput)); simpl; reflexivity);
    reflexivity.
Qed.


Lemma defined_false (v : JsValue) : defined v = false <-> v = JUndefined.
Proof. destruct v; simpl; split; intros; congruence. Qed.


Lemma pg_int4_JStr (id : ustring) (i : option Z) :
  pg_int4 (JStr id) = Ok i -> exists z, i = Some z /\ int4in id = Some z.
Proof.
  unfold pg_int4. destruct (int4in id) as [z | ]; intros H; inversion H.
  now exists z.
Qed.

Lemma pg_int4_of_int4in (id : ustring) (z : Z) :
  int4in id = Some z -> pg_int4 (JStr id) = Ok (Some z).
Proof. intros H. unfold pg_int4. now rewrite H. Qed.

Lemma selected_by_id (l : list Chat) (c : Chat) (uid : Z) :
  NoDup (map c_id l) -> In c l -> c_user_id c = uid ->
  forall x, In x l ->
    same_id (Some (c_id c)) (c_id x) && same_id (Some uid) (c_user_id x)
    = (c_id x =? c_id c).
Proof.
  intros Hnd Hc Hown x Hx. simpl.
  destruct (c_id x =? c_id c) eqn:Hid.
  - apply Z.eqb_eq in Hid.
    assert (x = c) as -> by (apply (NoDup_key_inj c_id l); auto).
    rewrite Z.eqb_refl. simpl. subst uid. apply Z.eqb_refl.
  - rewrite Z.eqb_sym, Hid. reflexivity.
Qed.

Lemma updated_title_check title userInput adviceOutput now c :
  match (if defined title then varchar255 (pg_text title) else Ok None) with
  | Ok _ => True
  | Throw e => updated title userInput adviceOutput now c = Throw e
  end.
Proof.
  unfold updated. destruct (defined title); [ | exact I ].
  now destruct (varchar255 (pg_text title)).
Qed.

(** The update on a database where the chat exists and belongs to the
    account. *)
Lemma update_where_one title userInput adviceOutput id now d u c :
  consistent d -> In u (users d) -> In c (chats d) ->
  c_user_id c = u_id u -> int4in id = Some (c_id c) ->
  update_where title userInput adviceOutput id (u_id u) now d =
  match updated title userInput adviceOutput now c with
  | Ok c' =>
      (Ok [chat_row c'],
       mkDb (users d)
            (map (fun x => if c_id x =? c_id c then c' else x) (chats d))
            (users_id_seq d) (chats_id_seq d))
  | Throw e => (Throw e, d)
  end.
Proof.
  intros Hd Hu Hc Hown Hid. unfold update_where.
  rewrite (pg_int4_of_int4in _ _ Hid).
  destruct (users_id_range d Hd u Hu) as [Hr _].
  rewrite (pg_int4_JNum _ Hr). cbn [bindR].
  pose proof (selected_by_id (chats d) c (u_id u) (chats_pkey d Hd) Hc Hown)
    as Hsel.
  rewrite (update_rows_one _ _ (chats d) c (chats_pkey d Hd) Hc).
  - pose proof (updated_title_check title userInput adviceOutput now c)
      as Hcheck.
    destruct (if defined title then varchar255 (pg_text title) else Ok None)
      as [t | e]; cbn [bindR].
    + destruct (updated title userInput adviceOutput now c) as [c' | e];
        cbn [bindR]; [ | reflexivity ].
      do 2 f_equal. apply map_ext_in. intros x Hx.
      now rewrite (Hsel x Hx).
    + now rewrite Hcheck.
  - rewrite (Hsel c Hc). apply Z.eqb_refl.
  - intros x Hx Hx'. rewrite (Hsel x Hx) in Hx'. now apply Z.eqb_eq.
Qed.

(** The update on a database where no chat has that id and owner finds
    nothing, unless a parameter is refused. *)
Lemma update_where_none title userInput adviceOutput id uid now d :
  (forall c, In c (chats d) ->
     int4in id = Some (c_id c) -> c_user_id c <> uid) ->
  forall rows d',
    update_where title userInput adviceOutput id uid now d = (Ok rows, d') ->
    rows = [] /\ d' = d.
Proof.
  intros Hnone rows d'. unfold update_where.
  destruct (pg_int4 (JStr id)) as [i | e] eqn:Hi; cbn [bindR];
    [ | discriminate ].
  apply pg_int4_JStr in Hi as (z & -> & Hz).
  destruct (pg_int4 (JNum uid)) as [uid' | e] eqn:Hu; cbn [bindR];
    [ | discriminate ].
  assert (uid' = Some uid) as ->.
  { unfold pg_int4 in Hu. destruct (in_int4 uid); congruence. }
  match goal with
  | |- context [bindR ?r _] => destruct r; cbn [bindR]; [ | discriminate ]
  end.
  rewrite update_rows_unselected.
  - intros [= <- <-]. split; [reflexivity | now destruct d].
  - intros x Hx. simpl.
    destruct (z =? c_id x) eqn:Hid; [ | reflexivity ].
    apply Z.eqb_eq in Hid. subst z. simpl.
    apply Z.eqb_neq. intros Heq. now apply (Hnone x Hx Hz).
Qed.

Lemma updated_fields title userInput adviceOutput now c c' :
  updated title userInput adviceOutput now c = Ok c' ->
  c_id c' = c_id c /\ c_user_id c' = c_user_id c /\
  c_created_at c' = c_created_at c /\ c_updated_at c' = now /\
  c_title c' = (if defined title then pg_text title else c_title c) /\
  Some (c_user_input c') =
    (if defined userInput then pg_text userInput
     else Some (c_user_input c)) /\
  Some (c_advice_output c') =
    (if defined adviceOutput then pg_text adviceOutput
     else Some (c_advice_output c)).
Proof.
  unfold updated.
  destruct (defined title), (defined userInput), (defined adviceOutput);
    try (destruct (pg_text title) as [t | ]; simpl;
         [ destruct (char_length t <=? 255)%nat | ]; simpl);
    try (destruct (pg_text userInput); simpl);
    try (destruct (pg_text adviceOutput); simpl);
    intros H; inversion H; simpl; repeat split; reflexivity.
Qed.


(** A 200 from the update handler comes from a row the statement
    returned, for the account that has the email of the request. *)
Lemma put_200 req env faults d resp st :
  consistent d ->
  serve PUT_api_chats_id req env faults d = (Ok resp, st) ->
  status resp = 200 ->
  exists u row rows,
    In u (users d) /\ pg_text (body_email req) = Some (u_email u) /\
    update_where (body_title req) (body_userInput req)
      (body_adviceOutput req) (params_id req) (u_id u) (env_now env) d =
      (Ok (row :: rows), st_db st) /\
    json resp = OneChat row.
Proof.
  intros Hd. unfold serve, app, put_api_chats_id, try_catch, bind.
  destruct (truthy (body_email req)); simpl;
    [ | intros [= <- _]; discriminate ].
  rewrite pool_query_run. cbn [st_db st_faults st_calls].
  destruct (hd false faults); [ simpl; intros [= <- _]; discriminate | ].
  destruct (select_user_ids_sound d (body_email req)) as (ids & -> & Hids).
  cbn [fst snd].
  destruct ids as [ | userId ids]; [ simpl; intros [= <- _]; discriminate | ].
  destruct (Hids userId (or_introl eq_refl)) as (u & Hu & <- & Hmail).
  pose proof (put_statement_refines (body_title req) (body_userInput req)
                (body_adviceOutput req) (params_id req) (u_id u)
                (env_now env) d) as Href.
  destruct (push_if_defined col_advice_output _ _)
    as [[updates values] paramCount].
  destruct updates as [ | item updates];
    [ simpl; intros [= <- _]; discriminate | ].
  cbn [length Nat.eqb].
  rewrite pool_query_run. cbn [st_db st_faults st_calls].
  destruct (hd false (tl faults)); [ simpl; intros [= <- _]; discriminate | ].
  rewrite (Href eq_refl).
  destruct (update_where _ _ _ _ _ _ d) as [[[ | row rows] | e] d'] eqn:Hup;
    simpl; intros [= <- <-]; try discriminate.
  intros _. exists u, row, rows. auto.
Qed.


(** ** Deleting a chat *)

Lemma filter_all {A : Type} (t : A -> bool) (l : list A) :
  (forall x, In x l -> t x = true) -> filter t l = l.
Proof.
  induction l as [ | a l IH]; simpl; intros H; [reflexivity | ].
  rewrite (H a) by now left. f_equal. apply IH. intros x Hx. apply H. now right.
Qed.

Lemma delete_chat_one id d u c :
  consistent d -> In u (users d) -> In c (chats d) ->
  c_user_id c = u_id u -> int4in id = Some (c_id c) ->
  delete_chat (JStr id) (JNum (u_id u)) d =
    (Ok [c_id c],
     mkDb (users d) (filter (fun x => negb (c_id x =? c_id c)) (chats d))
          (users_id_seq d) (chats_id_seq d)).
Proof.
  intros Hd Hu Hc Hown Hid. unfold delete_chat.
  rewrite (pg_int4_of_int4in _ _ Hid).
  destruct (users_id_range d Hd u Hu) as [Hr _].
  rewrite (pg_int4_JNum _ Hr). cbn [bindR].
  pose proof (selected_by_id (chats d) c (u_id u) (chats_pkey d Hd) Hc Hown)
    as Hsel.
  f_equal.
  - rewrite (filter_key c_id _ (chats d) c (chats_pkey d Hd)); auto.
    + intros x Hx Hx'. rewrite (Hsel x Hx) in Hx'. now apply Z.eqb_eq.
    + rewrite (Hsel c Hc). apply Z.eqb_refl.
  - f_equal. apply filter_ext_in. intros x Hx. now rewrite (Hsel x Hx).
Qed.

Lemma delete_chat_none id z uid d :
  int4in id = Some z -> in_int4 uid = true ->
  (forall c, In c (chats d) -> c_id c = z -> c_user_id c <> uid) ->
  delete_chat (JStr id) (JNum uid) d = (Ok [], d).
Proof.
  intros Hid Hr Hnone. unfold delete_chat.
  rewrite (pg_int4_of_int4in _ _ Hid), (pg_int4_JNum _ Hr). cbn [bindR].
  assert (forall x, In x (chats d) ->
            same_id (Some z) (c_id x) && same_id (Some uid) (c_user_id x)
            = false) as Hsel.
  { intros x Hx. simpl. destruct (z =? c_id x) eqn:Hz; [ | reflexivity ].
    apply Z.eqb_eq in Hz. simpl. apply Z.eqb_neq. intros Heq.
    now apply (Hnone x Hx). }
  rewrite (filter_none _ _ Hsel). f_equal.
  rewrite filter_all; [now destruct d | ].
  intros x Hx. now rewrite (Hsel x Hx).
Qed.

(** C6.  With the store reachable, for a chat that the account owns: the
    first delete answers 200 "Chat deleted successfully" and leaves every
    chat but that one; a second delete of the same id by the same account
    answers 404 "Chat not found" and changes nothing. *)
Theorem delete_confirms_once_then_reports_not_found
    req env env' faults faults' d u c :
  reachable d -> quiet faults -> quiet faults' ->
  In u (users d) -> In c (chats d) -> c_user_id c = u_id u ->
  query_email req = JStr (u_email u) ->
  int4in (params_id req) = Some (c_id c) ->
  exists d1,
    serve DELETE_api_chats_id req env faults d =
      (Ok (mkResponse 200 (Message "Chat deleted successfully")),
       mkSt d1 (tl (tl faults)) []) /\
    users d1 = users d /\
    (forall x, In x (chats d1) <-> In x (chats d) /\ x <> c) /\
    serve DELETE_api_chats_id req env' faults' d1 =
      (Ok (mkResponse 404 (Error "Chat not found")),
       mkSt d1 (tl (tl faults')) []).
Proof.
  intros Hreach Hquiet Hquiet' Hu Hc Hown Hmail Hid.
  pose proof (reachable_consistent d Hreach) as Hd.
  destruct (chats_user_id_fkey d Hd c Hc) as (u0 & Hu0 & Hid0 & Hne).
  assert (u0 = u) as ->.
  { apply (NoDup_key_inj u_id (users d)); auto; [apply Hd | congruence]. }
  assert (truthy (query_email req) = true) as He.
  { rewrite Hmail. now apply truthy_JStr. }
  assert (pg_text (query_email req) = Some (u_email u)) as Htext.
  { rewrite Hmail. simpl. f_equal. apply (users_email_text d Hd u Hu). }
  set (d1 := mkDb (users d)
                  (filter (fun x => negb (c_id x =? c_id c)) (chats d))
                  (users_id_seq d) (chats_id_seq d)).
  assert (serve DELETE_api_chats_id req env faults d =
            (Ok (mkResponse 200 (Message "Chat deleted successfully")),
             mkSt d1 (tl (tl faults)) [])) as Hfirst.
  { unfold serve, app, delete_api_chats_id, try_catch, bind.
    rewrite He. simpl.
    rewrite (pool_query_quiet _ env d faults [] Hquiet).
    rewrite (select_user_ids_found d _ u Hd Hu Htext). simpl.
    rewrite (pool_query_quiet _ env d (tl faults) [] (quiet_tl _ Hquiet)).
    now rewrite (delete_chat_one _ d u c Hd Hu Hc Hown Hid). }
  assert (consistent d1) as Hd1.
  { pose proof (serve_consistent DELETE_api_chats_id req env faults d Hd) as H.
    now rewrite Hfirst in H. }
  exists d1. split; [exact Hfirst | ]. split; [reflexivity | ]. split.
  - intros x. unfold d1. simpl. rewrite filter_In. split.
    + intros [Hx Hneq]. split; [exact Hx | ]. intros ->.
      now rewrite Z.eqb_refl in Hneq.
    + intros [Hx Hneq]. split; [exact Hx | ].
      apply negb_true_iff, Z.eqb_neq. intros Heq. apply Hneq.
      apply (NoDup_key_inj c_id (chats d)); auto. apply Hd.
  - unfold serve, app, delete_api_chats_id, try_catch, bind.
    rewrite He. simpl.
    rewrite (pool_query_quiet _ env' d1 faults' [] Hquiet').
    rewrite (select_user_ids_found d1 _ u Hd1 Hu Htext). simpl.
    rewrite (pool_query_quiet _ env' d1 (tl faults') [] (quiet_tl _ Hquiet')).
    rewrite (delete_chat_none _ (c_id c) (u_id u) d1 Hid); auto.
    + apply (users_id_range d Hd u Hu).
    + intros x Hx Heq. unfold d1 in Hx. simpl in Hx.
      apply filter_In in Hx as [_ Hneq].
      now rewrite Heq, Z.eqb_refl in Hneq.
Qed.

(** ** Every request is answered *)

Lemma hoare_top {A : Type} env (P : Db -> Prop) (m : M A) :
  hoare env P m (fun _ _ => True).
Proof. unfold hoare. auto. Qed.

(** Each handler catches what its body throws, so serving a request always
    ends with a response. *)
Lemma app_responds r req env st : exists resp, fst (app r req env st) = Ok resp.
Proof.
  assert (hoare env (fun _ => True) (app r req)
                (fun res _ => exists resp, res = Ok resp)) as H.
  { destruct r; simpl;
      eapply hoare_try_catch with (R := fun _ _ => True);
      try apply hoare_top;
      try (intros a d _; now exists a);
      intros e; apply hoare_ret; intros d _; now eexists. }
  exact (H st I).
Qed.

(** ** Signup, then login *)


(** ** Ids in decimal *)

Ltac eval_digit :=
  match goal with
  | |- context [digit_of ?c] =>
      let v := eval vm_compute in (digit_of c) in
      change (digit_of c) with v; cbv iota beta
  end.

Lemma read_digits_acc (u : Decimal.uint) (acc : positive) :
  read_digits (NilEmpty.string_of_uint u) (Z.pos acc) =
  (Z.pos (Pos.of_uint_acc u acc), "").
Proof.
  revert acc. induction u; intros acc;
    cbn [NilEmpty.string_of_uint Pos.of_uint_acc read_digits];
    try reflexivity; eval_digit;
    match goal with
    | |- read_digits _ ?z = (Z.pos (Pos.of_uint_acc _ ?a), _) =>
        replace z with (Z.pos a) by lia
    end; apply IHu.
Qed.

Lemma read_digits_0 (u : Decimal.uint) :
  read_digits (NilEmpty.string_of_uint u) 0 = (Z.of_N (Pos.of_uint u), "").
Proof.
  induction u;
    cbn [NilEmpty.string_of_uint Pos.of_uint read_digits];
    try reflexivity; eval_digit;
    [ exact IHu | .. ];
    match goal with
    | |- read_digits _ _ = (Z.of_N (N.pos (Pos.of_uint_acc _ ?a)), _) =>
        apply (read_digits_acc u a)
    end.
Qed.

Ltac eval_space :=
  repeat match goal with
  | |- context [is_space ?c] =>
      let v := eval vm_compute in (is_space c) in
      change (is_space c) with v
  end; cbv iota beta.

Ltac read_all :=
  match goal with
  | |- context [read_digits (String ?c (NilEmpty.string_of_uint ?v)) 0] =>
      match goal with
      | |- context [Pos.of_uint ?w] =>
          change (String c (NilEmpty.string_of_uint v))
            with (NilEmpty.string_of_uint w);
          rewrite (read_digits_0 w)
      end
  end.

Lemma int4in_digits (u : Decimal.uint) :
  u <> Decimal.Nil ->
  int4in_decimal (NilEmpty.string_of_uint u) =
  if in_int4 (Z.of_N (Pos.of_uint u)) then Some (Z.of_N (Pos.of_uint u))
  else None.
Proof.
  intros Hu. destruct u; try (now destruct Hu);
    unfold int4in_decimal; cbn [NilEmpty.string_of_uint skip_spaces];
    eval_space; eval_digit; read_all; reflexivity.
Qed.

Lemma int4in_minus_digits (u : Decimal.uint) :
  u <> Decimal.Nil ->
  int4in_decimal (String "-" (NilEmpty.string_of_uint u)) =
  if in_int4 (- Z.of_N (Pos.of_uint u)) then Some (- Z.of_N (Pos.of_uint u))
  else None.
Proof.
  intros Hu. destruct u; try (now destruct Hu);
    unfold int4in_decimal; cbn [NilEmpty.string_of_uint skip_spaces];
    eval_space; eval_digit; read_all; reflexivity.
Qed.

Lemma string_of_uint_nonnil (u : Decimal.uint) :
  u <> Decimal.Nil -> NilZero.string_of_uint u = NilEmpty.string_of_uint u.
Proof. destruct u; intros H; try reflexivity. now destruct H. Qed.

Lemma int4in_decimal_of_int (n : Z) :
  in_int4 n = true ->
  int4in_decimal (NilZero.string_of_int (Z.to_int n)) = Some n.
Proof.
  intros Hn. destruct n as [ | p | p]; simpl.
  - reflexivity.
  - rewrite (string_of_uint_nonnil _ (Unsigned.to_uint_nonnil p)).
    rewrite (int4in_digits _ (Unsigned.to_uint_nonnil p)).
    rewrite Unsigned.of_to. simpl. now rewrite Hn.
  - rewrite (string_of_uint_nonnil _ (Unsigned.to_uint_nonnil p)).
    rewrite (int4in_minus_digits _ (Unsigned.to_uint_nonnil p)).
    rewrite Unsigned.of_to. simpl. now rewrite Hn.
Qed.

(** The store reads the decimal text of an id as that id, whatever else it
    reads. *)
Lemma int4in_id_text (n : Z) : in_int4 n = true -> int4in (id_text n) = Some n.
Proof.
  intros Hn. unfold int4in, id_text.
  now rewrite narrow_utf16, (int4in_decimal_of_int n Hn).
Qed.

(** ** The statuses of each route *)

Ltac answer :=
  repeat first
    [ apply hoare_res_status_json; intros; simpl; tauto
    | apply hoare_res_json; intros; simpl; tauto
    | eapply hoare_bind with (R := fun _ _ => True);
        [ apply hoare_top | intros ? | intros; exact I ]
    | match goal with
      | |- hoare _ _ (if ?b then _ else _) _ => destruct b
      | |- hoare _ _ (match ?x with _ => _ end) _ => destruct x
      | |- hoare _ _ (let '(_, _) := ?x in _) _ => destruct x
      end ].

Lemma try_catch_answers env (body : M Response) (h : Exn -> M Response)
    (l : list Z) :
  hoare env (fun _ => True) body (answers l) ->
  (forall e, exists s j, h e = res_status_json s j /\ In s l) ->
  hoare env (fun _ => True) (try_catch body h)
        (fun r _ => exists resp, r = Ok resp /\ In (status resp) l).
Proof.
  intros Hbody Hh.
  eapply hoare_try_catch with (R := answers l); [exact Hbody | | ].
  - intros a d Ha. now exists a.
  - intros e. destruct (Hh e) as (s & j & -> & Hs).
    apply hoare_ret. intros d _. eexists. split; [reflexivity | exact Hs].
Qed.

Ltac caught :=
  cbv zeta; apply try_catch_answers;
  [ answer
  | intros; do 2 eexists; split; [reflexivity | simpl; tauto] ].

Lemma generate_status req env st :
  exists resp,
    fst (post_api_generate req env st) = Ok resp /\
    In (status resp) (statuses POST_api_generate env).
Proof.
  unfold post_api_generate, try_catch, bind, getenv_GEMINI_API_KEY, fetch,
    lift, statuses.
  destruct (truthy (body_userInput req)); cbn [negb];
    [ | destruct (env_gemini env); eexists;
        (split; [reflexivity | simpl; tauto]) ].
  destruct (GEMINI_API_KEY env) as [k | ];
    [ rewrite truthy_key; destruct (k =? "")%string | ]; simpl;
    destruct (env_gemini env) as [m | s [data | e]]; simpl;
    try (destruct (fetch_ok s); simpl);
    try (destruct (no_candidates data); simpl);
    eexists; (split; [reflexivity | simpl; tauto]).
Qed.

Lemma route_status r req env st :
  exists resp,
    fst (app r req env st) = Ok resp /\ In (status resp) (statuses r env).
Proof.
  destruct r; try apply generate_status;
    match goal with
    | |- exists resp, fst (app ?r req env st) = _ /\ _ =>
        assert (hoare env (fun _ => True) (app r req)
                  (fun res _ => exists resp,
                     res = Ok resp /\ In (status resp) (statuses r env)))
          as H; [ | exact (H st I) ]
    end; cbn [app statuses].
  - unfold post_signup. caught.
  - unfold post_login. caught.
  - unfold get_api_chats. caught.
  - unfold get_api_chats_id. caught.
  - unfold post_api_chats. caught.
  - unfold put_api_chats_id. caught.
  - unfold delete_api_chats_id. caught.
Qed.

(** ** The routes that only read *)

Ltac still d :=
  repeat first
    [ apply hoare_res_status_json; intros; assumption
    | apply hoare_res_json; intros; assumption
    | apply hoare_lift; intros; assumption
    | apply hoare_bcrypt_compare_js; intros; assumption
    | apply hoare_getenv; intros; assumption
    | apply hoare_fetch; intros; assumption
    | apply hoare_pool_query; intros ? ?; split;
        [ assumption
        | rewrite ?select_users_db, ?select_user_ids_db; assumption ]
    | eapply hoare_try_catch with (R := fun _ d' => d' = d);
        [ | intros; assumption | intros ? ]
    | eapply hoare_bind with (R := fun _ d' => d' = d);
        [ | intros ? | intros; assumption ]
    | match goal with
      | |- hoare _ _ (if ?b then _ else _) _ => destruct b
      | |- hoare _ _ (match ?x with _ => _ end) _ => destruct x
      end ].

Lemma reads_keep_the_database r req env d :
  reads r = true ->
  hoare env (fun d' => d' = d) (app r req) (fun _ d' => d' = d).
Proof.
  destruct r; try discriminate; intros _; simpl.
  - unfold post_login. still d.
  - unfold post_api_generate. still d.
  - unfold get_api_chats. still d.
  - unfold get_api_chats_id. still d.
Qed.

(** ** Refused requests and the rows *)

Lemma same_rows_refl d : same_rows d d.
Proof. split; reflexivity. Qed.

Lemma update_rows_returning_nil sel f l table :
  update_rows sel f l = Ok (table, []) -> table = l.
Proof.
  revert table. induction l as [ | c l IH]; simpl; intros table H.
  - now inversion H.
  - destruct (sel c).
    + destruct (f c) as [c' | ]; simpl in H; [ | discriminate ].
      destruct (update_rows sel f l) as [[t r] | ]; simpl in H; discriminate.
    + destruct (update_rows sel f l) as [[t r] | ]; simpl in H;
        [ | discriminate ].
      inversion H; subst. f_equal. now apply IH.
Qed.

Lemma insert_user_rows email password d0 d :
  same_rows d0 d ->
  match fst (insert_user email password d) with
  | Ok _ => True
  | Throw _ => same_rows d0 (snd (insert_user email password d))
  end.
Proof.
  intros [Hu Hc]. unfold insert_user.
  destruct (serial _); simpl; [ | now split ].
  destruct (bindR (varchar255 (pg_text email)) not_null); simpl;
    [ | now split ].
  destruct (bindR (varchar255 (pg_text password)) not_null); simpl;
    [ | now split ].
  destruct (existsb _ _); simpl; [now split | exact I].
Qed.

Lemma insert_chat_rows userId chatTitle userInput adviceOutput now d0 d :
  same_rows d0 d ->
  match fst (insert_chat userId chatTitle userInput adviceOutput now d) with
  | Ok _ => True
  | Throw _ =>
      same_rows d0
        (snd (insert_chat userId chatTitle userInput adviceOutput now d))
  end.
Proof.
  intros [Hu Hc]. unfold insert_chat.
  destruct (serial _); simpl; [ | now split ].
  destruct (bindR (pg_int4 userId) not_null); simpl; [ | now split ].
  destruct (varchar255 (pg_text chatTitle)); simpl; [ | now split ].
  destruct (not_null (pg_text userInput)); simpl; [ | now split ].
  destruct (not_null (pg_text adviceOutput)); simpl; [ | now split ].
  destruct (existsb _ _); simpl; [exact I | now split].
Qed.

Lemma update_chats_rows stmt values now d0 d :
  same_rows d0 d ->
  match fst (update_chats stmt values now d) with
  | Ok rows => rows = [] -> same_rows d0 (snd (update_chats stmt values now d))
  | Throw _ => same_rows d0 (snd (update_chats stmt values now d))
  end.
Proof.
  intros [Hu Hc]. unfold update_chats.
  match goal with
  | |- context [match ?r with Ok _ => _ | Throw _ => _ end] =>
      destruct r as [[table returning] | ] eqn:Hr
  end; simpl; [ | now split ].
  intros Hnil. apply map_eq_nil in Hnil. subst returning.
  destruct (negb _); [discriminate | ].
  destruct (bindR (placeholder values (where_id stmt)) pg_int4) as [i | ];
    simpl in Hr; [ | discriminate ].
  destruct (bindR (placeholder values (where_user_id stmt)) pg_int4)
    as [uid | ]; simpl in Hr; [ | discriminate ].
  destruct (bind_items values now (set_items stmt)) as [sets | ];
    simpl in Hr; [ | discriminate ].
  apply update_rows_returning_nil in Hr. subst table. now split.
Qed.

Lemma delete_chat_rows id userId d0 d :
  same_rows d0 d ->
  match fst (delete_chat id userId d) with
  | Ok ids => ids = [] -> same_rows d0 (snd (delete_chat id userId d))
  | Throw _ => same_rows d0 (snd (delete_chat id userId d))
  end.
Proof.
  intros [Hu Hc]. unfold delete_chat.
  destruct (pg_int4 id) as [i | ]; simpl; [ | now split ].
  destruct (pg_int4 userId) as [uid | ]; simpl; [ | now split ].
  intros Hnil. apply map_eq_nil in Hnil. split; simpl; [exact Hu | ].
  rewrite filter_all; [exact Hc | ].
  intros x Hx. apply negb_true_iff.
  match goal with
  | |- ?t = false => destruct t eqn:Hsel; [ | reflexivity ]
  end.
  match type of Hnil with
  | filter ?sel _ = [] =>
      assert (In x (filter sel (chats d))) as Hin by (apply filter_In; auto)
  end.
  rewrite Hnil in Hin. destruct Hin.
Qed.

Ltac spare d :=
  repeat first
    [ apply hoare_res_status_json; unfold spares; simpl; intros; assumption
    | apply hoare_lift; intros; assumption
    | apply hoare_bcrypt_hash_js; intros; assumption
    | apply hoare_pool_query; intros ? ?; split;
        [ assumption | rewrite ?select_user_ids_db; assumption ]
    | eapply hoare_try_catch with (R := spares d);
        [ | intros; assumption | intros ? ]
    | match goal with
      | |- hoare _ _ (bind (pool_query (fun _ => insert_user _ _)) _) _ =>
          eapply hoare_bind with
            (R := fun r d' => match r with
                              | Ok _ => True
                              | Throw _ => same_rows d d'
                              end);
          [ apply hoare_pool_query; intros ? ?; split;
              [ assumption | now apply insert_user_rows ]
          | intros ?; apply hoare_res_status_json; unfold spares; simpl;
              intros; congruence
          | intros; assumption ]
      | |- hoare _ _ (bind (pool_query (insert_chat _ _ _ _)) _) _ =>
          eapply hoare_bind with
            (R := fun r d' => match r with
                              | Ok _ => True
                              | Throw _ => same_rows d d'
                              end);
          [ apply hoare_pool_query; intros ? ?; split;
              [ assumption | now apply insert_chat_rows ]
          | intros ?; apply hoare_res_status_json; unfold spares; simpl;
              intros; congruence
          | intros; assumption ]
      | |- hoare _ _ (bind (pool_query (update_chats _ _)) _) _ =>
          eapply hoare_bind with
            (R := fun r d' => match r with
                              | Ok rows => rows = [] -> same_rows d d'
                              | Throw _ => same_rows d d'
                              end);
          [ apply hoare_pool_query; intros ? ?; split;
              [ assumption | now apply update_chats_rows ]
          | intros [ | ? ?]; simpl;
              [ apply hoare_res_status_json; unfold spares; simpl;
                intros ? Hrows _ _; now apply Hrows
              | apply hoare_res_json; unfold spares; simpl;
                intros; congruence ]
          | intros; assumption ]
      | |- hoare _ _ (bind (pool_query (fun _ => delete_chat _ _)) _) _ =>
          eapply hoare_bind with
            (R := fun r d' => match r with
                              | Ok rows => rows = [] -> same_rows d d'
                              | Throw _ => same_rows d d'
                              end);
          [ apply hoare_pool_query; intros ? ?; split;
              [ assumption | now apply delete_chat_rows ]
          | intros [ | ? ?]; simpl;
              [ apply hoare_res_status_json; unfold spares; simpl;
                intros ? Hrows _ _; now apply Hrows
              | apply hoare_res_json; unfold spares; simpl;
                intros; congruence ]
          | intros; assumption ]
      end
    | eapply hoare_bind with (R := fun _ d' => same_rows d d');
        [ | intros ? | intros; assumption ]
    | match goal with
      | |- hoare _ _ (if ?b then _ else _) _ => destruct b
      | |- hoare _ _ (match ?x with _ => _ end) _ => destruct x
      end
    | progress cbv zeta ].

Lemma writes_spare_the_rows r req env d :
  reads r = false ->
  hoare env (same_rows d) (app r req) (spares d).
Proof.
  destruct r; try discriminate; intros _; cbn [app].
  - unfold post_signup. spare d.
  - unfold post_api_chats. spare d.
  - unfold put_api_chats_id. spare d.
  - unfold delete_api_chats_id. spare d.
Qed.

Lemma app_spares_the_rows r req env d : hoare env (same_rows d) (app r req) (spares d).
Proof.
  destruct (reads r) eqn:Hr; [ | now apply writes_spare_the_rows ].
  intros st [Hu Hc].
  assert (st_db st = mkDb (users d) (chats d) (users_id_seq (st_db st))
                          (chats_id_seq (st_db st))) as Hst.
  { destruct (st_db st). simpl in *. now subst. }
  pose proof (reads_keep_the_database r req env (st_db st) Hr st eq_refl)
    as Hsame.
  rewrite Hsame.
  destruct (fst (app r req env st)); simpl; intros; now split.
Qed.

(** ** Fetching one chat *)

Lemma select_chat_one id d u c :
  consistent d -> In u (users d) -> In c (chats d) ->
  c_user_id c = u_id u -> int4in id = Some (c_id c) ->
  select_chat (JStr id) (JNum (u_id u)) d = (Ok [chat_row c], d).
Proof.
  intros Hd Hu Hc Hown Hid. unfold select_chat.
  rewrite (pg_int4_of_int4in _ _ Hid).
  destruct (users_id_range d Hd u Hu) as [Hr _].
  rewrite (pg_int4_JNum _ Hr). cbn [bindR].
  pose proof (selected_by_id (chats d) c (u_id u) (chats_pkey d Hd) Hc Hown)
    as Hsel.
  rewrite (filter_key c_id _ (chats d) c (chats_pkey d Hd)); auto.
  - intros x Hx Hx'. rewrite (Hsel x Hx) in Hx'. now apply Z.eqb_eq.
  - rewrite (Hsel c Hc). apply Z.eqb_refl.
Qed.

Lemma select_chat_none id z uid d :
  int4in id = Some z -> in_int4 uid = true ->
  (forall c, In c (chats d) -> c_id c = z -> c_user_id c <> uid) ->
  select_chat (JStr id) (JNum uid) d = (Ok [], d).
Proof.
  intros Hid Hr Hnone. unfold select_chat.
  rewrite (pg_int4_of_int4in _ _ Hid), (pg_int4_JNum _ Hr). cbn [bindR].
  rewrite filter_none; [reflexivity | ].
  intros x Hx. simpl. destruct (z =? c_id x) eqn:Hz; [ | reflexivity ].
  apply Z.eqb_eq in Hz. simpl. apply Z.eqb_neq. intros Heq.
  now apply (Hnone x Hx).
Qed.

(** The get handler once the account is found. *)
Lemma get_run req env faults d u :
  consistent d -> quiet faults ->
  In u (users d) -> pg_text (query_email req) = Some (u_email u) ->
  truthy (query_email req) = true ->
  serve GET_api_chats_id req env faults d =
  match fst (select_chat (JStr (params_id req)) (JNum (u_id u)) d) with
  | Ok [] =>
      (Ok (mkResponse 404 (Error "Chat not found")),
       mkSt d (tl (tl faults)) [])
  | Ok (row :: _) =>
      (Ok (mkResponse 200 (OneChat row)), mkSt d (tl (tl faults)) [])
  | Throw _ =>
      (Ok (mkResponse 500 (Error "Server error")),
       mkSt d (tl (tl faults)) [])
  end.
Proof.
  intros Hd Hquiet Hu Hmail He.
  remember (select_chat (JStr (params_id req)) (JNum (u_id u)) d) as found
    eqn:Hfound.
  unfold serve, app, get_api_chats_id, try_catch, bind.
  rewrite He. simpl.
  rewrite (pool_query_quiet _ env d faults [] Hquiet).
  rewrite (select_user_ids_found d _ u Hd Hu Hmail). simpl.
  rewrite (pool_query_quiet _ env d (tl faults) [] (quiet_tl _ Hquiet)).
  cbv beta. rewrite <- Hfound.
  assert (snd found = d) as -> by (subst found; apply select_chat_db).
  destruct (fst found) as [[ | row rows] | e]; reflexivity.
Qed.

Lemma get_found req env faults d u c :
  consistent d -> quiet faults ->
  In u (users d) -> pg_text (query_email req) = Some (u_email u) ->
  truthy (query_email req) = true ->
  In c (chats d) -> c_user_id c = u_id u ->
  int4in (params_id req) = Some (c_id c) ->
  serve GET_api_chats_id req env faults d =
    (Ok (mkResponse 200 (OneChat (chat_row c))), mkSt d (tl (tl faults)) []).
Proof.
  intros Hd Hquiet Hu Hmail He Hc Hown Hid.
  rewrite (get_run req env faults d u Hd Hquiet Hu Hmail He).
  now rewrite (select_chat_one _ d u c Hd Hu Hc Hown Hid).
Qed.

Lemma get_missing req env faults d u z :
  consistent d -> quiet faults ->
  In u (users d) -> pg_text (query_email req) = Some (u_email u) ->
  truthy (query_email req) = true ->
  int4in (params_id req) = Some z ->
  (forall c, In c (chats d) -> c_id c = z -> c_user_id c <> u_id u) ->
  serve GET_api_chats_id req env faults d =
    (Ok (mkResponse 404 (Error "Chat not found")), mkSt d (tl (tl faults)) []).
Proof.
  intros Hd Hquiet Hu Hmail He Hid Hnone.
  rewrite (get_run req env faults d u Hd Hquiet Hu Hmail He).
  rewrite (select_chat_none _ z (u_id u) d Hid); auto.
  apply (users_id_range d Hd u Hu).
Qed.

Lemma list_run req env faults d u :
  consistent d -> quiet faults ->
  In u (users d) -> pg_text (query_email req) = Some (u_email u) ->
  truthy (query_email req) = true ->
  serve GET_api_chats req env faults d =
    (Ok (mkResponse 200
           (Chats (map chat_row
                     (order_by_updated_at_desc
                        (filter (owns u) (chats d)))))),
     mkSt d (tl (tl faults)) []).
Proof.
  intros Hd Hquiet Hu Hmail He.
  unfold serve, app, get_api_chats, try_catch, bind. rewrite He. simpl.
  rewrite (pool_query_quiet _ env d faults [] Hquiet).
  rewrite (select_user_ids_found d _ u Hd Hu Hmail). simpl.
  rewrite (pool_query_quiet _ env d (tl faults) [] (quiet_tl _ Hquiet)).
  now rewrite (select_chats_of d u Hd Hu).
Qed.


(** ** What a success has done *)

Lemma insert_chat_inv n chatTitle userInput adviceOutput now d rows d' :
  insert_chat (JNum n) chatTitle userInput adviceOutput now d = (Ok rows, d') ->
  exists c,
    rows = [chat_row c] /\
    d' = mkDb (users d) (chats d ++ [c]) (users_id_seq d)
              (nextval (chats_id_seq d)) /\
    c_id c = nextval (chats_id_seq d) /\ c_user_id c = n /\
    varchar255 (pg_text chatTitle) = Ok (c_title c) /\
    pg_text userInput = Some (c_user_input c) /\
    pg_text adviceOutput = Some (c_advice_output c) /\
    c_created_at c = now /\ c_updated_at c = now.
Proof.
  unfold insert_chat.
  destruct (serial _) as [i | ] eqn:Hi; simpl; [ | discriminate ].
  apply serial_inv in Hi as [-> _].
  unfold pg_int4. destruct (in_int4 n); simpl; [ | discriminate ].
  destruct (varchar255 (pg_text chatTitle)) as [t | ]; simpl;
    [ | discriminate ].
  destruct (pg_text userInput) as [q | ]; simpl; [ | discriminate ].
  destruct (pg_text adviceOutput) as [a | ]; simpl; [ | discriminate ].
  destruct (existsb _ _); simpl; [ | discriminate ].
  intros [= <- <-]. eexists. repeat split.
Qed.

(** A 201 from the create handler comes from a row the store has
    appended. *)
Lemma create_201 req env faults d resp st :
  serve POST_api_chats req env faults d = (Ok resp, st) ->
  status resp = 201 ->
  exists u c tv,
    In u (users d) /\ pg_text (body_email req) = Some (u_email u) /\
    truthy (body_email req) = true /\
    chatTitle (body_title req) (body_userInput req) = Ok tv /\
    varchar255 (pg_text tv) = Ok (c_title c) /\
    pg_text (body_userInput req) = Some (c_user_input c) /\
    pg_text (body_adviceOutput req) = Some (c_advice_output c) /\
    c_id c = nextval (chats_id_seq d) /\ c_user_id c = u_id u /\
    c_created_at c = env_now env /\ c_updated_at c = env_now env /\
    json resp = OneChat (chat_row c) /\
    st_db st = mkDb (users d) (chats d ++ [c]) (users_id_seq d)
                    (nextval (chats_id_seq d)).
Proof.
  unfold serve, app, post_api_chats, try_catch, bind.
  destruct (truthy (body_email req)) eqn:He; simpl;
    [ | intros [= <- _]; discriminate ].
  destruct (truthy (body_userInput req)); simpl;
    [ | intros [= <- _]; discriminate ].
  destruct (truthy (body_adviceOutput req)); simpl;
    [ | intros [= <- _]; discriminate ].
  rewrite pool_query_run. cbn [st_db st_faults st_calls].
  destruct (hd false faults); [ simpl; intros [= <- _]; discriminate | ].
  destruct (select_user_ids_sound d (body_email req)) as (ids & -> & Hids).
  cbn [fst snd].
  destruct ids as [ | userId ids]; [ simpl; intros [= <- _]; discriminate | ].
  destruct (Hids userId (or_introl eq_refl)) as (u & Hu & <- & Hmail).
  destruct (chatTitle (body_title req) (body_userInput req)) as [tv | e];
    [ | simpl; intros [= <- _]; discriminate ].
  unfold lift. rewrite pool_query_run. cbn [st_db st_faults st_calls].
  destruct (hd false (tl faults)); [ simpl; intros [= <- _]; discriminate | ].
  destruct (insert_chat (JNum (u_id u)) tv (body_userInput req)
              (body_adviceOutput req) (env_now env) d)
    as [[rows | e] d'] eqn:Hins;
    [ | simpl; intros [= <- _]; discriminate ].
  apply insert_chat_inv in Hins
    as (c & -> & -> & Hid & Hown & Ht & Hq & Ha & Hc1 & Hc2).
  simpl. intros [= <- <-] _. exists u, c, tv. repeat split; auto.
Qed.

(** A 200 from the update handler, with the row before and the row
    after. *)
Lemma put_200_chat req env faults d resp st :
  consistent d ->
  serve PUT_api_chats_id req env faults d = (Ok resp, st) ->
  status resp = 200 ->
  exists u c c',
    In u (users d) /\ pg_text (body_email req) = Some (u_email u) /\
    In c (chats d) /\ c_user_id c = u_id u /\
    int4in (params_id req) = Some (c_id c) /\
    updated (body_title req) (body_userInput req) (body_adviceOutput req)
            (env_now env) c = Ok c' /\
    json resp = OneChat (chat_row c') /\
    st_db st =
      mkDb (users d)
           (map (fun x => if c_id x =? c_id c then c' else x) (chats d))
           (users_id_seq d) (chats_id_seq d).
Proof.
  intros Hd Hserve Hstatus.
  destruct (put_200 req env faults d resp st Hd Hserve Hstatus)
    as (u & row & rows & Hu & Hmail & Hup & Hjson).
  destruct (find (fun c => match int4in (params_id req) with
                           | Some z => (c_id c =? z) && (c_user_id c =? u_id u)
                           | None => false
                           end) (chats d)) as [c | ] eqn:Hfind.
  - apply find_some in Hfind as [Hc Hsel].
    destruct (int4in (params_id req)) as [z | ] eqn:Hz; [ | discriminate ].
    apply andb_true_iff in Hsel as [Hid Hown].
    apply Z.eqb_eq in Hid, Hown. subst z.
    rewrite (update_where_one _ _ _ _ _ d u c Hd Hu Hc Hown Hz) in Hup.
    destruct (updated _ _ _ (env_now env) c) as [c' | e] eqn:Hupd;
      [ | discriminate ].
    injection Hup as Hrow Hrows Hdb.
    exists u, c, c'. rewrite <- Hdb, Hjson, <- Hrow. repeat split; auto.
  - exfalso.
    assert (forall c, In c (chats d) ->
              int4in (params_id req) = Some (c_id c) ->
              c_user_id c <> u_id u) as Hnone.
    { intros c Hc Hz Hown.
      pose proof (find_none _ _ Hfind c Hc) as Hsel. simpl in Hsel.
      rewrite Hz, Hown, !Z.eqb_refl in Hsel. discriminate. }
    destruct (update_where_none _ _ _ _ _ _ d Hnone _ _ Hup) as [Hrows _].
    discriminate.
Qed.

(** A 200 from the delete handler comes from a chat of the account, which is
    gone afterwards. *)
Lemma delete_200 req env faults d resp st :
  consistent d ->
  serve DELETE_api_chats_id req env faults d = (Ok resp, st) ->
  status resp = 200 ->
  exists u c,
    In u (users d) /\ pg_text (query_email req) = Some (u_email u) /\
    truthy (query_email req) = true /\
    In c (chats d) /\ c_user_id c = u_id u /\
    int4in (params_id req) = Some (c_id c) /\
    st_db st =
      mkDb (users d) (filter (fun x => negb (c_id x =? c_id c)) (chats d))
           (users_id_seq d) (chats_id_seq d).
Proof.
  intros Hd. unfold serve, app, delete_api_chats_id, try_catch, bind.
  destruct (truthy (query_email req)) eqn:He; simpl;
    [ | intros [= <- _]; discriminate ].
  rewrite pool_query_run. cbn [st_db st_faults st_calls].
  destruct (hd false faults); [ simpl; intros [= <- _]; discriminate | ].
  destruct (select_user_ids_sound d (query_email req)) as (ids & -> & Hids).
  cbn [fst snd].
  destruct ids as [ | userId ids]; [ simpl; intros [= <- _]; discriminate | ].
  destruct (Hids userId (or_introl eq_refl)) as (u & Hu & <- & Hmail).
  rewrite pool_query_run. cbn [st_db st_faults st_calls].
  destruct (hd false (tl faults)); [ simpl; intros [= <- _]; discriminate | ].
  destruct (int4in (params_id req)) as [z | ] eqn:Hz.
  - destruct (find (fun c => (c_id c =? z) && (c_user_id c =? u_id u))
                   (chats d)) as [c | ] eqn:Hfind.
    + apply find_some in Hfind as [Hc Hsel].
      apply andb_true_iff in Hsel as [Hid Hown].
      apply Z.eqb_eq in Hid, Hown. subst z.
      rewrite (delete_chat_one _ d u c Hd Hu Hc Hown Hz). simpl.
      intros [= <- <-] _. exists u, c. repeat split; auto.
    + rewrite (delete_chat_none _ z (u_id u) d Hz).
      * simpl. intros [= <- _]. discriminate.
      * apply (users_id_range d Hd u Hu).
      * intros c Hc Hid Hown.
        pose proof (find_none _ _ Hfind c Hc) as Hsel. simpl in Hsel.
        rewrite Hid, Hown, !Z.eqb_refl in Hsel. discriminate.
  - unfold delete_chat, pg_int4 at 1. rewrite Hz. simpl.
    intros [= <- _]. discriminate.
Qed.

(** ** Titles, and the login after a signup *)

Lemma serve_db r req env faults d resp st :
  consistent d -> serve r req env faults d = (Ok resp, st) ->
  consistent (st_db st).
Proof.
  intros Hd Hserve. pose proof (serve_consistent r req env faults d Hd) as H.
  now rewrite Hserve in H.
Qed.

Lemma varchar255_inv v t : varchar255 v = Ok t -> t = v.
Proof.
  unfold varchar255. destruct v as [s | ]; [ | congruence ].
  destruct (char_length s <=? 255)%nat; congruence.
Qed.

(** The title of a chat created without a truthy title: [userInput] is a
    string, and the title is the one derived from it, as the store writes
    it. *)
Lemma create_201_derived_title req (c : Chat) (tv : JsValue) :
  truthy (body_title req) = false ->
  chatTitle (body_title req) (body_userInput req) = Ok tv ->
  varchar255 (pg_text tv) = Ok (c_title c) ->
  exists s,
    body_userInput req = JStr s /\
    c_title c = Some (toWellFormed (default_title s)).
Proof.
  intros Hfalsy Htitle Ht.
  destruct (body_userInput req) as [ | | b | n | s] eqn:Hui;
    try (unfold chatTitle in Htitle; rewrite Hfalsy in Htitle;
         discriminate Htitle).
  exists s. split; [reflexivity | ].
  rewrite (chatTitle_default _ s Hfalsy) in Htitle. injection Htitle as <-.
  now apply varchar255_inv in Ht.
Qed.


(** C9.  On create, a title that is falsy (the empty string, [null],
    [false], 0 or missing) is treated as no title at all: the handler does
    exactly what it does for the same request without a title, and when the
    answer is 201 the row stored and returned has the title derived from
    [userInput], as the store writes it, not the title of the request.  On
    update, an empty string is a supplied title: when the answer is 200, the
    row stored and returned in place of the chat with the id of the path
    has the empty string as title. *)
Theorem falsy_title_ignored_on_create_applied_on_update :
  (forall req env st,
     truthy (body_title req) = false ->
     post_api_chats req env st =
       post_api_chats (set_title JUndefined req) env st) /\
  (forall req env faults d resp st,
     truthy (body_title req) = false ->
     serve POST_api_chats req env faults d = (Ok resp, st) ->
     status resp = 201 ->
     exists s c,
       body_userInput req = JStr s /\
       json resp = OneChat (chat_row c) /\
       chats (st_db st) = (chats d ++ [c])%list /\
       c_title c = Some (toWellFormed (default_title s))) /\
  (forall req env faults d resp st,
     reachable d ->
     body_title req = JStr [] ->
     serve PUT_api_chats_id req env faults d = (Ok resp, st) ->
     status resp = 200 ->
     exists c c',
       In c (chats d) /\ int4in (params_id req) = Some (c_id c) /\
       json resp = OneChat (chat_row c') /\
       chats (st_db st) =
         map (fun x => if c_id x =? c_id c then c' else x) (chats d) /\
       In c' (chats (st_db st)) /\
       c_id c' = c_id c /\ c_title c' = Some []).
Proof.
  split; [ | split ].
  - intros req env st Ht. unfold post_api_chats. simpl.
    now rewrite (chatTitle_falsy _ (body_userInput req) Ht).
  - intros req env faults d resp st Hfalsy Hserve Hstatus.
    destruct (create_201 req env faults d resp st Hserve Hstatus)
      as (u & c & tv & Hu & Hmail & He & Htitle & Ht & Hq & Ha & Hid & Hown
          & Hc1 & Hc2 & Hjson & Hdb).
    destruct (create_201_derived_title req c tv Hfalsy Htitle Ht)
      as (s & Hs & Hc).
    exists s, c. rewrite Hdb. auto.
  - intros req env faults d resp st Hreach Htitle Hserve Hstatus.
    pose proof (reachable_consistent d Hreach) as Hd.
    destruct (put_200_chat req env faults d resp st Hd Hserve Hstatus)
      as (u & c & c' & Hu & Hmail & Hc & Hown & Hid & Hupd & Hjson & Hdb).
    apply updated_fields in Hupd as (Hid' & _ & _ & _ & Ht & _).
    rewrite Htitle in Ht. simpl in Ht.
    exists c, c'. rewrite Hdb. simpl. repeat split; auto.
    apply in_map_iff. exists c. rewrite Z.eqb_refl. auto.
Qed.


(** * Further properties of the handlers *)

(** X1.  Every database the application can reach keeps what the schema
    declares: account ids, emails and chat ids are unique, every chat
    belongs to an account that exists (and whose email is not empty), and
    no id is ahead of its sequence. *)
Theorem reachable_databases_keep_the_schema d :
  reachable d ->
  NoDup (map u_id (users d)) /\
  NoDup (map u_email (users d)) /\
  NoDup (map c_id (chats d)) /\
  (forall c, In c (chats d) ->
     exists u, In u (users d) /\ u_id u = c_user_id c /\ u_email u <> []) /\
  (forall u, In u (users d) -> u_id u <= users_id_seq d) /\
  (forall c, In c (chats d) -> c_id c <= chats_id_seq d).
Proof.
  intros Hd. apply reachable_consistent in Hd.
  destruct Hd as [H1 H2 H3 H4 H5 H6 H7]. repeat split; auto.
  - intros u Hu. apply (H5 u Hu).
  - intros c Hc. apply (H6 c Hc).
Qed.

(** With a body, a handler as registered is the handler of [app]. *)
Lemma arrive_with_body r a env st :
  has_body a = true -> arrive r a env st = app r (request a) env st.
Proof.
  intros Hbody. unfold arrive, destructure_body. rewrite Hbody.
  destruct r; try reflexivity; unfold try_catch, bind, ret.
  - destruct (app_responds POST_api_chats (request a) env st) as (resp & H).
    destruct (app POST_api_chats (request a) env st) as [res st'].
    simpl in H. now subst res.
  - destruct (app_responds PUT_api_chats_id (request a) env st) as (resp & H).
    destruct (app PUT_api_chats_id (request a) env st) as [res st'].
    simpl in H. now subst res.
Qed.

(** X2.  Every request is answered by its handler, whatever the store and
    the provider do, and each route answers only with the statuses of its
    own list: signup 201 or 400; login 200, 400, 401 or 500; create 201,
    400, 404 or 500; list, get, update and delete 200, 400, 404 or 500;
    generate 200, 400, 500 or the status the provider replied with.  The
    one exception is a signup or a login that carries no JSON body: the
    destructuring of [req.body] throws before the handler's [try], the
    handler answers nothing, and the state is as it was. *)
Theorem every_route_answers_with_its_statuses r a env faults d :
  (has_body a = true \/ destructures_unguarded r = false ->
   exists resp,
     fst (receive r a env faults d) = Ok resp /\
     In (status resp) (statuses r env)) /\
  (has_body a = false -> destructures_unguarded r = true ->
   exists message,
     receive r a env faults d = (Throw (TypeError message), mkSt d faults [])).
Proof.
  unfold receive. split.
  - intros Hcase. destruct (has_body a) eqn:Hbody.
    + rewrite (arrive_with_body r a env _ Hbody). apply route_status.
    + destruct Hcase as [Hcase | Hcase]; [discriminate | ].
      unfold arrive, destructure_body. rewrite Hbody.
      destruct r; try discriminate; try apply route_status;
        unfold bind, throw, try_catch, res_status_json, ret;
        eexists; (split; [reflexivity | simpl; tauto]).
  - intros Hbody Hr. unfold arrive, destructure_body. rewrite Hbody.
    destruct r; try discriminate; unfold bind, throw; eexists; reflexivity.
Qed.

(** A request without a body is no new way to change the database. *)
Lemma receive_reachable r a env faults d :
  reachable d -> reachable (st_db (snd (receive r a env faults d))).
Proof.
  intros Hd. unfold receive. destruct (has_body a) eqn:Hbody.
  - rewrite (arrive_with_body r a env _ Hbody).
    apply (reachable_serve d r (request a) env faults Hd).
  - unfold arrive, destructure_body. rewrite Hbody.
    destruct r; try exact Hd;
      match goal with
      | |- reachable (st_db (snd (app ?r ?q _ _))) =>
          exact (reachable_serve d r q env faults Hd)
      end.
Qed.

(** X3.  Login, generate, list and get never write: whatever the request,
    the faults of the store and the provider's reply, the database after
    the request is the database before it. *)
Theorem read_routes_never_write r req env faults d :
  reads r = true -> st_db (snd (serve r req env faults d)) = d.
Proof.
  intros Hr. unfold serve.
  exact (reads_keep_the_database r req env d Hr (mkSt d faults []) eq_refl).
Qed.

(** X4.  A request that is answered with anything but 200 or 201 has
    changed no row: the accounts and the chats are those it found. *)
Theorem refused_requests_change_no_row r req env faults d resp st :
  serve r req env faults d = (Ok resp, st) ->
  status resp <> 200 -> status resp <> 201 ->
  users (st_db st) = users d /\ chats (st_db st) = chats d.
Proof.
  intros Hserve H200 H201. unfold serve in Hserve.
  pose proof (app_spares_the_rows r req env d (mkSt d faults [])
                (same_rows_refl d)) as H.
  rewrite Hserve in H. simpl in H. exact (H H200 H201).
Qed.

(** X5.  No account changes or deletes the chat of another: when the
    request carries the email of an account B and the id of a chat that an
    account A other than B owns, update and delete are never answered 200
    and leave every row as it was, whatever the body of the request and the
    faults of the store. *)
Theorem no_account_writes_to_the_chat_of_another
    req env faults d A B' c :
  reachable d ->
  In A (users d) -> In B' (users d) -> B' <> A ->
  In c (chats d) -> c_user_id c = u_id A ->
  int4in (params_id req) = Some (c_id c) ->
  (pg_text (body_email req) = Some (u_email B') ->
   same_rows d (st_db (snd (serve PUT_api_chats_id req env faults d))) /\
   forall resp, fst (serve PUT_api_chats_id req env faults d) = Ok resp ->
                status resp <> 200) /\
  (pg_text (query_email req) = Some (u_email B') ->
   same_rows d (st_db (snd (serve DELETE_api_chats_id req env faults d))) /\
   forall resp, fst (serve DELETE_api_chats_id req env faults d) = Ok resp ->
                status resp <> 200).
Proof.
  intros Hreach HA HB Hneq Hc Hown Hid.
  pose proof (reachable_consistent d Hreach) as Hd.
  assert (forall u c0,
            In u (users d) -> u_email u = u_email B' ->
            In c0 (chats d) -> c_user_id c0 = u_id u ->
            int4in (params_id req) = Some (c_id c0) -> False) as Hclash.
  { intros u c0 Hu Hmail Hc0 Hown0 Hid0.
    assert (u = B') as ->
      by (apply (NoDup_key_inj u_email (users d)); auto; apply Hd).
    assert (c0 = c) as ->.
    { apply (NoDup_key_inj c_id (chats d)); auto; [apply Hd | congruence]. }
    apply Hneq. apply (NoDup_key_inj u_id (users d)); auto; [apply Hd | ].
    congruence. }
  split; intros Hmail.
  - assert (forall resp st,
              serve PUT_api_chats_id req env faults d = (Ok resp, st) ->
              status resp <> 200) as Hnot.
    { intros resp st Hserve H200.
      destruct (put_200_chat req env faults d resp st Hd Hserve H200)
        as (u & c0 & c' & Hu & Hm & Hc0 & Hown0 & Hid0 & _).
      apply (Hclash u c0); auto. congruence. }
    destruct (route_status PUT_api_chats_id req env (mkSt d faults []))
      as (resp & Hresp & Hstatus).
    fold (serve PUT_api_chats_id req env faults d) in Hresp.
    destruct (serve PUT_api_chats_id req env faults d) as [res st] eqn:Hserve.
    simpl in Hresp. subst res. split.
    + pose proof (app_spares_the_rows PUT_api_chats_id req env d
                    (mkSt d faults []) (same_rows_refl d)) as H.
      unfold serve in Hserve. rewrite Hserve in H. simpl in H. apply H.
      * exact (Hnot resp st eq_refl).
      * simpl in Hstatus. intros H201. rewrite H201 in Hstatus.
        destruct Hstatus as [E | [E | [E | [E | []]]]]; discriminate E.
    + simpl. intros resp0 [= <-]. exact (Hnot resp st eq_refl).
  - assert (forall resp st,
              serve DELETE_api_chats_id req env faults d = (Ok resp, st) ->
              status resp <> 200) as Hnot.
    { intros resp st Hserve H200.
      destruct (delete_200 req env faults d resp st Hd Hserve H200)
        as (u & c0 & Hu & Hm & _ & Hc0 & Hown0 & Hid0 & _).
      apply (Hclash u c0); auto. congruence. }
    destruct (route_status DELETE_api_chats_id req env (mkSt d faults []))
      as (resp & Hresp & Hstatus).
    fold (serve DELETE_api_chats_id req env faults d) in Hresp.
    destruct (serve DELETE_api_chats_id req env faults d) as [res st]
      eqn:Hserve.
    simpl in Hresp. subst res. split.
    + pose proof (app_spares_the_rows DELETE_api_chats_id req env d
                    (mkSt d faults []) (same_rows_refl d)) as H.
      unfold serve in Hserve. rewrite Hserve in H. simpl in H. apply H.
      * exact (Hnot resp st eq_refl).
      * simpl in Hstatus. intros H201. rewrite H201 in Hstatus.
        destruct Hstatus as [E | [E | [E | [E | []]]]]; discriminate E.
    + simpl. intros resp0 [= <-]. exact (Hnot resp st eq_refl).
Qed.

(** ** Reading back what was written *)

(** X7.  A chat that create has answered with 201 can be read back at once:
    with the store reachable, the get for the same email and the id of the
    returned row answers 200 with that very row, and the list for the same
    email contains it. *)
Theorem created_chat_is_read_back
    req env faults d resp st req' env' faults' :
  reachable d ->
  serve POST_api_chats req env faults d = (Ok resp, st) ->
  status resp = 201 ->
  quiet faults' -> query_email req' = body_email req ->
  exists row,
    json resp = OneChat row /\
    (params_id req' = id_text (r_id row) ->
     serve GET_api_chats_id req' env' faults' (st_db st) =
       (Ok (mkResponse 200 (OneChat row)),
        mkSt (st_db st) (tl (tl faults')) [])) /\
    exists rows,
      serve GET_api_chats req' env' faults' (st_db st) =
        (Ok (mkResponse 200 (Chats rows)),
         mkSt (st_db st) (tl (tl faults')) []) /\
      In row rows.
Proof.
  intros Hreach Hserve Hstatus Hquiet Hemail.
  pose proof (reachable_consistent d Hreach) as Hd.
  pose proof (serve_db _ _ _ _ _ _ _ Hd Hserve) as Hd1.
  destruct (create_201 req env faults d resp st Hserve Hstatus)
    as (u & c & tv & Hu & Hmail & He & _ & _ & _ & _ & Hid & Hown & _ & _
        & Hjson & Hdb).
  assert (In u (users (st_db st))) as Hu1 by (rewrite Hdb; exact Hu).
  assert (In c (chats (st_db st))) as Hc1.
  { rewrite Hdb. simpl. apply in_or_app. right. now left. }
  rewrite <- Hemail in Hmail, He.
  exists (chat_row c). split; [exact Hjson | ]. split.
  - intros Hpath.
    apply (get_found req' env' faults' (st_db st) u c); auto.
    rewrite Hpath. apply int4in_id_text.
    apply (chats_id_range (st_db st) Hd1 c Hc1).
  - eexists. split.
    + apply (list_run req' env' faults' (st_db st) u); auto.
    + apply in_map.
      apply (Permutation_in _ (order_by_perm _)).
      apply filter_In. split; [exact Hc1 | ].
      unfold owns. rewrite Hown. apply Z.eqb_refl.
Qed.

Lemma put_200_truthy req env faults d resp st :
  serve PUT_api_chats_id req env faults d = (Ok resp, st) ->
  status resp = 200 -> truthy (body_email req) = true.
Proof.
  unfold serve, app, put_api_chats_id, try_catch.
  destruct (truthy (body_email req)); [reflexivity | ].
  simpl. intros [= <- _]. discriminate.
Qed.

(** X8.  A chat that update has answered with 200 can be read back at once:
    with the store reachable, the get for the same email and the same id
    answers 200 with the row the update returned. *)
Theorem updated_chat_is_read_back
    req env faults d resp st req' env' faults' :
  reachable d ->
  serve PUT_api_chats_id req env faults d = (Ok resp, st) ->
  status resp = 200 ->
  quiet faults' -> query_email req' = body_email req ->
  params_id req' = params_id req ->
  exists row,
    json resp = OneChat row /\
    serve GET_api_chats_id req' env' faults' (st_db st) =
      (Ok (mkResponse 200 (OneChat row)),
       mkSt (st_db st) (tl (tl faults')) []).
Proof.
  intros Hreach Hserve Hstatus Hquiet Hemail Hpath.
  pose proof (reachable_consistent d Hreach) as Hd.
  pose proof (serve_db _ _ _ _ _ _ _ Hd Hserve) as Hd1.
  pose proof (put_200_truthy _ _ _ _ _ _ Hserve Hstatus) as He.
  destruct (put_200_chat req env faults d resp st Hd Hserve Hstatus)
    as (u & c & c' & Hu & Hmail & Hc & Hown & Hid & Hupd & Hjson & Hdb).
  apply updated_fields in Hupd as (Hid' & Hown' & _).
  rewrite <- Hemail in Hmail, He. rewrite <- Hpath in Hid.
  exists (chat_row c'). split; [exact Hjson | ].
  apply (get_found req' env' faults' (st_db st) u c'); auto.
  - rewrite Hdb. exact Hu.
  - rewrite Hdb. simpl. apply in_map_iff. exists c.
    rewrite Z.eqb_refl. auto.
  - congruence.
  - congruence.
Qed.

(** X9.  A chat that delete has answered with 200 is gone at once: with the
    store reachable, the get for the same email and the same id answers 404
    "Chat not found", and the list for the same email is answered with rows
    none of which has that id. *)
Theorem deleted_chat_is_gone
    req env faults d resp st req' env' faults' :
  reachable d ->
  serve DELETE_api_chats_id req env faults d = (Ok resp, st) ->
  status resp = 200 ->
  quiet faults' -> query_email req' = query_email req ->
  params_id req' = params_id req ->
  serve GET_api_chats_id req' env' faults' (st_db st) =
    (Ok (mkResponse 404 (Error "Chat not found")),
     mkSt (st_db st) (tl (tl faults')) []) /\
  exists rows,
    serve GET_api_chats req' env' faults' (st_db st) =
      (Ok (mkResponse 200 (Chats rows)),
       mkSt (st_db st) (tl (tl faults')) []) /\
    forall row, In row rows -> int4in (params_id req) <> Some (r_id row).
Proof.
  intros Hreach Hserve Hstatus Hquiet Hemail Hpath.
  pose proof (reachable_consistent d Hreach) as Hd.
  pose proof (serve_db _ _ _ _ _ _ _ Hd Hserve) as Hd1.
  destruct (delete_200 req env faults d resp st Hd Hserve Hstatus)
    as (u & c & Hu & Hmail & He & Hc & Hown & Hid & Hdb).
  rewrite <- Hemail in Hmail, He.
  assert (In u (users (st_db st))) as Hu1 by (rewrite Hdb; exact Hu).
  assert (forall x, In x (chats (st_db st)) -> c_id x <> c_id c) as Hgone.
  { intros x Hx Heq. rewrite Hdb in Hx. simpl in Hx.
    apply filter_In in Hx as [_ Hx]. now rewrite Heq, Z.eqb_refl in Hx. }
  split.
  - apply (get_missing req' env' faults' (st_db st) u (c_id c)); auto.
    + now rewrite Hpath.
    + intros x Hx Heq. now destruct (Hgone x Hx).
  - eexists. split.
    + apply (list_run req' env' faults' (st_db st) u); auto.
    + intros row Hrow. rewrite Hid. intros [= Heq].
      apply in_select_chats in Hrow as (x & Hx & <- & _).
      apply (Hgone x Hx). simpl in Heq. congruence.
Qed.

(** ** What create and signup store *)



(** ** The advice proxy, continued *)

(** X12.  The generate handler calls the provider at most once per request
    and never retries: it adds one call to the log, carrying the key and the
    user's text, exactly when [userInput] is truthy and the key is set and
    not empty, and none otherwise, whatever the provider then does.  It
    never touches the database. *)
Theorem generate_calls_the_provider_at_most_once req env st :
  st_calls (snd (post_api_generate req env st)) =
    (st_calls st ++
     match GEMINI_API_KEY env with
     | Some k =>
         if truthy (body_userInput req) && negb (k =? "")%string
         then [mkGeminiCall k (body_userInput req)]
         else []
     | None => []
     end)%list /\
  st_db (snd (post_api_generate req env st)) = st_db st.
Proof.
  unfold post_api_generate, try_catch, bind, getenv_GEMINI_API_KEY, fetch,
    lift.
  destruct (truthy (body_userInput req)); cbn [negb andb].
  - destruct (GEMINI_API_KEY env) as [k | ];
      [ rewrite truthy_key; destruct (k =? "")%string | ]; simpl;
      try (rewrite app_nil_r; split; reflexivity).
    destruct (env_gemini env) as [m | s [data | e]]; simpl;
      try (destruct (fetch_ok s); simpl);
      try (destruct (no_candidates data); simpl);
      split; reflexivity.
  - destruct (GEMINI_API_KEY env); rewrite app_nil_r; split; reflexivity.
Qed.

(** X13.  The generate handler answers 200 only with the provider's own
    answer: the provider has then replied with a status from 200 to 299 and
    a body that parses and holds at least one candidate, and that body is
    the body of the answer. *)
Theorem generate_answers_200_only_with_a_candidate req env st resp :
  fst (post_api_generate req env st) = Ok resp ->
  status resp = 200 ->
  exists s data n,
    env_gemini env = FetchReplies s (Ok data) /\
    fetch_ok s = true /\
    data_candidates data = Some n /\ n <> O /\
    json resp = Provider data.
Proof.
  unfold post_api_generate, try_catch, bind, getenv_GEMINI_API_KEY, fetch,
    lift.
  destruct (truthy (body_userInput req)); cbn [negb];
    [ | simpl; intros [= <-]; discriminate ].
  destruct (GEMINI_API_KEY env) as [k | ];
    [ rewrite truthy_key; destruct (k =? "")%string | ]; simpl;
    try (intros [= <-]; discriminate).
  destruct (env_gemini env) as [m | s [data | e]]; simpl;
    try (intros [= <-]; discriminate).
  destruct (fetch_ok s) eqn:Hok; simpl.
  - unfold no_candidates.
    destruct (data_candidates data) as [n | ] eqn:Hn; simpl;
      [ destruct n as [ | n]; simpl | ];
      intros [= <-]; try discriminate.
    intros _. exists s, data, (S n). repeat split; auto.
  - intros [= <-]. simpl. intros Hs. subst s. discriminate Hok.
Qed.

(** X14.  When the provider replies with a status outside 200 to 299 and a
    body that parses, the generate handler relays that status, with the
    provider's error message when the body has one and "Gemini API error"
    otherwise, and with the body as details.  When the provider cannot be
    reached, or its body does not parse, the answer is 500 "Internal server
    error" with the message of the exception. *)
Theorem generate_relays_the_failure_of_the_provider req env st k :
  truthy (body_userInput req) = true ->
  GEMINI_API_KEY env = Some k -> k <> "" ->
  (forall s data,
     env_gemini env = FetchReplies s (Ok data) -> fetch_ok s = false ->
     fst (post_api_generate req env st) =
       Ok (mkResponse s
             (ErrorDetails
                (if truthy (data_error_message data)
                 then data_error_message data
                 else JStr "Gemini API error")
                data))) /\
  (forall m,
     env_gemini env = FetchRejects m ->
     fst (post_api_generate req env st) =
       Ok (mkResponse 500 (ErrorMessage "Internal server error" m))) /\
  (forall s e,
     env_gemini env = FetchReplies s (Throw e) ->
     fst (post_api_generate req env st) =
       Ok (mkResponse 500
             (ErrorMessage "Internal server error" (exn_message e)))).
Proof.
  intros Hin Hkey Hne. apply String.eqb_neq in Hne.
  unfold post_api_generate, try_catch, bind.
  rewrite Hin. cbn [negb]. unfold getenv_GEMINI_API_KEY. rewrite Hkey.
  rewrite truthy_key, Hne. cbn [negb].
  unfold fetch, lift, gemini_error, js_or.
  split; [ | split ].
  - intros s data -> Hok. simpl. now rewrite Hok.
  - now intros m ->.
  - now intros s e ->.
Qed.

(** ** The assembled UPDATE *)

(** X15.  The statement the update handler assembles is well numbered,
    whichever fields the body supplies: there are as many values as SET
    items, the k-th item names the placeholder k and the k-th value is the
    request's value for its column, every supplied field has its item and
    no other field has one, the two placeholders of the WHERE clause are
    bound to the id of the path and to the account id, and the statement
    declares exactly as many parameters as the array holds. *)
Theorem the_assembled_update_is_well_numbered
    (title userInput adviceOutput : JsValue) (id : ustring) (userId : Z) :
  let '(updates, values, paramCount) :=
    push_if_defined col_advice_output adviceOutput
      (push_if_defined col_user_input userInput
         (push_if_defined col_title title ([], [], 1%nat))) in
  length values = length updates /\
  paramCount = S (length updates) /\
  (forall k item,
     nth_error updates k = Some item ->
     exists col,
       item = SetParam col (S k) /\
       nth_error values k = Some (field_of col title userInput adviceOutput)) /\
  (forall col,
     (exists n, In (SetParam col n) updates) <->
     defined (field_of col title userInput adviceOutput) = true) /\
  placeholder (values ++ [JStr id; JNum userId]) paramCount = Ok (JStr id) /\
  placeholder (values ++ [JStr id; JNum userId]) (S paramCount) =
    Ok (JNum userId) /\
  arity (mkUpdateChats (updates ++ [SetUpdatedAt]) paramCount (S paramCount)) =
    length (values ++ [JStr id; JNum userId]).
Proof.
  unfold push_if_defined.
  destruct (defined title) eqn:Ht, (defined userInput) eqn:Hui,
    (defined adviceOutput) eqn:Hao; simpl;
    (split; [reflexivity | ]); (split; [reflexivity | ]);
    (split;
     [ intros [ | [ | [ | k]]] item Hitem; simpl in Hitem;
       try discriminate; try (destruct k; discriminate);
       injection Hitem as <-; eexists; split; reflexivity | ]);
    (split;
     [ intros [ | | ]; simpl; split;
       try (intros _; assumption);
       try (intros _; eexists; simpl; tauto);
       try (intros (n & Hn); simpl in Hn;
            repeat (destruct Hn as [Hn | Hn]; try discriminate Hn);
            now destruct Hn);
       try congruence
     | ]);
    repeat split; reflexivity.
Qed.

(** ** Guards and faults *)

(** X18.  The five routes that work on chats ask for an email first: when
    it is missing or empty (in the query for list, get and delete, in the
    body for create and update) the answer is 400 with an error message,
    and the handler has not asked the store anything, so that the answer is
    the same when the store is down.  For create and update this supposes
    that the request has a JSON body: without one the destructuring of
    [req.body] throws inside the [try] and the answer is 500 "Server
    error", the store not asked either. *)
Theorem chat_routes_require_an_email r a env faults d v :
  scoped_email r (request a) = Some v ->
  (truthy v = false ->
   (destructures_guarded r = true -> has_body a = true) ->
   exists message,
     receive r a env faults d =
       (Ok (mkResponse 400 (Error message)), mkSt d faults [])) /\
  (destructures_guarded r = true -> has_body a = false ->
   receive r a env faults d =
     (Ok (mkResponse 500 (Error "Server error")), mkSt d faults [])).
Proof.
  intros Hscope. unfold receive. split.
  - intros Hv Hbody.
    assert (arrive r a env (mkSt d faults []) =
            app r (request a) env (mkSt d faults [])) as ->.
    { destruct (has_body a) eqn:Hb; [now apply arrive_with_body | ].
      destruct r; simpl in Hscope; try discriminate Hscope;
        try reflexivity; discriminate (Hbody eq_refl). }
    destruct r; simpl in Hscope; try discriminate; injection Hscope as <-;
      unfold app, get_api_chats, get_api_chats_id, post_api_chats,
        put_api_chats_id, delete_api_chats_id, try_catch;
      rewrite Hv; simpl; eexists; reflexivity.
  - intros Hr Hbody. unfold arrive, destructure_body. rewrite Hbody.
    destruct r; try discriminate; reflexivity.
Qed.

(** X19.  When the store cannot be reached at the first statement of a
    request, login, list, get, create, update and delete write nothing and
    answer 500 "Server error", unless the request was refused with a 400
    before the store was asked. *)
Theorem an_unreachable_store_is_answered_500 r req env faults d :
  r <> POST_signup -> r <> POST_api_generate ->
  hd false faults = true ->
  st_db (snd (serve r req env faults d)) = d /\
  (fst (serve r req env faults d) =
     Ok (mkResponse 500 (Error "Server error")) \/
   exists message,
     fst (serve r req env faults d) = Ok (mkResponse 400 (Error message))).
Proof.
  intros Hsignup Hgenerate Hdown.
  destruct r; try (now destruct Hsignup); try (now destruct Hgenerate);
    unfold serve, app, post_login, get_api_chats, get_api_chats_id,
      post_api_chats, put_api_chats_id, delete_api_chats_id, try_catch, bind;
    cbv zeta;
    repeat match goal with
           | |- context [truthy ?v] => destruct (truthy v)
           end;
    cbn [negb orb];
    try (split; [reflexivity | right; eexists; reflexivity]);
    rewrite pool_query_run; cbn [st_db st_faults st_calls]; rewrite Hdown;
    (split; [reflexivity | left; reflexivity]).
Qed.

End Properties.


(** * Concrete runs

    The theorems above, applied to the sample data. *)

Lemma generate_without_input_calls_nobody_witness :
  post_api_generate (with_body JUndefined JUndefined (JStr "") JUndefined
                               JUndefined "")
    (at_time 500) (mkSt sample_db [] []) =
    (Ok (mkResponse 400 (Error "userInput is required")),
     mkSt sample_db [] []) /\
  st_calls
    (snd (post_api_generate
            (with_body JUndefined JUndefined (JStr "") JUndefined JUndefined "")
            (at_time 500) (mkSt sample_db [] []))) = [].
Proof.
  apply (generate_without_input_calls_nobody
           (with_body JUndefined JUndefined (JStr "") JUndefined JUndefined "")
           (at_time 500) (mkSt sample_db [] [])).
  reflexivity.
Defined.

#[local] Existing Instance sample_bcrypt.
#[local] Existing Instance plain_decimal.

Lemma sample_db_rows :
  sample_db = mkDb [alice; bob] [nausea_chat; sleep_chat; diet_chat] 2 3.
Proof. reflexivity. Qed.

Lemma sample_db_reachable : reachable sample_db.
Proof. exact (reachable_replay sample_script empty_db reachable_start). Qed.


Lemma quiet_nil : quiet [].
Proof. constructor. Qed.

(** C1 on the sample database: what the list and the get of alice return
    are alice's chats, and bob's chat has another id. *)
Lemma list_and_get_return_only_the_accounts_chats_witness :
  In (chat_row diet_chat)
     (returned_rows
        (Chats [chat_row diet_chat; chat_row nausea_chat])) /\
  ((exists c, In c (chats sample_db) /\ chat_row c = chat_row diet_chat /\
              c_user_id c = u_id alice) /\
   (forall B' c, In B' (users sample_db) -> B' <> alice ->
                 In c (chats sample_db) -> c_user_id c = u_id B' ->
                 r_id (chat_row diet_chat) <> c_id c)).
Proof.
  split; [simpl; auto | ].
  apply (list_and_get_return_only_the_accounts_chats
           (with_query (JStr "a@x.com") "") (at_time 500) [] sample_db alice
           (mkResponse 200 (Chats [chat_row diet_chat; chat_row nausea_chat]))
           (mkSt sample_db [] [])).
  - exact sample_db_reachable.
  - simpl. auto.
  - reflexivity.
  - left. reflexivity.
  - simpl. auto.
Defined.







(** C6 on the sample database: alice deletes her chat 3, then tries
    again. *)
Lemma delete_confirms_once_then_reports_not_found_witness :
  exists d1,
    serve DELETE_api_chats_id (with_query (JStr "a@x.com") "3") (at_time 500)
          [] sample_db =
      (Ok (mkResponse 200 (Message "Chat deleted successfully")),
       mkSt d1 [] []) /\
    users d1 = users sample_db /\
    (forall x, In x (chats d1) <-> In x (chats sample_db) /\ x <> diet_chat) /\
    serve DELETE_api_chats_id (with_query (JStr "a@x.com") "3") (at_time 600)
          [] d1 =
      (Ok (mkResponse 404 (Error "Chat not found")), mkSt d1 [] []).
Proof.
  apply (delete_confirms_once_then_reports_not_found
           (with_query (JStr "a@x.com") "3") (at_time 500) (at_time 600)
           [] [] sample_db alice diet_chat).
  - exact sample_db_reachable.
  - exact quiet_nil.
  - exact quiet_nil.
  - simpl. auto.
  - simpl. auto.
  - reflexivity.
  - reflexivity.
  - reflexivity.
Defined.



(** C9 on the sample database: a create with the empty string as title
    runs as the create without title and stores the derived title; an
    update with the empty string as title stores it. *)
Lemma falsy_title_ignored_on_create_applied_on_update_witness :
  (post_api_chats (set_title (JStr "") create_long) (at_time 500)
                  (mkSt sample_db [] []) =
   post_api_chats (set_title JUndefined (set_title (JStr "") create_long))
                  (at_time 500) (mkSt sample_db [] [])) /\
  (exists s c,
     body_userInput (set_title (JStr "") create_long) = JStr s /\
     OneChat long_row = OneChat (chat_row c) /\
     chats (st_db (snd (serve POST_api_chats
                              (set_title (JStr "") create_long)
                              (at_time 500) [] sample_db))) =
       (chats sample_db ++ [c])%list /\
     c_title c = Some (toWellFormed (default_title s))) /\
  (exists c c',
     In c (chats sample_db) /\
     int4in (params_id update_blank_title) = Some (c_id c) /\
     OneChat (chat_row blank_diet_chat) = OneChat (chat_row c') /\
     chats (st_db (snd (serve PUT_api_chats_id update_blank_title
                              (at_time 500) [] sample_db))) =
       map (fun x => if c_id x =? c_id c then c' else x) (chats sample_db) /\
     In c' (chats (st_db (snd (serve PUT_api_chats_id update_blank_title
                                     (at_time 500) [] sample_db)))) /\
     c_id c' = c_id c /\ c_title c' = Some []).
Proof.
  destruct falsy_title_ignored_on_create_applied_on_update
    as (Hsame & Hcreate & Hupdate).
  split; [ | split ].
  - apply (Hsame (set_title (JStr "") create_long) (at_time 500)
             (mkSt sample_db [] [])).
    reflexivity.
  - apply (Hcreate (set_title (JStr "") create_long) (at_time 500) []
             sample_db (mkResponse 201 (OneChat long_row))
             (snd (serve POST_api_chats (set_title (JStr "") create_long)
                         (at_time 500) [] sample_db))).
    + reflexivity.
    + reflexivity.
    + reflexivity.
  - apply (Hupdate update_blank_title (at_time 500) [] sample_db
             (mkResponse 200 (OneChat (chat_row blank_diet_chat)))
             (snd (serve PUT_api_chats_id update_blank_title (at_time 500) []
                         sample_db))).
    + exact sample_db_reachable.
    + reflexivity.
    + reflexivity.
    + reflexivity.
Defined.

(** C10 counterexample: a signup that carries no JSON body is answered
    neither 201 nor 400: the destructuring at the head of the handler
    throws, outside the [try], and the handler answers nothing. *)
Lemma signup_without_a_body_is_not_answered_400 :
  receive POST_signup (bodyless no_fields) (at_time 500) [] sample_db =
    (Throw (TypeError
       "Cannot destructure property 'email' of 'req.body' as it is undefined."),
     mkSt sample_db [] []) /\
  ~ (forall a env faults d,
       fst (receive POST_signup a env faults d) =
         Ok (mkResponse 201 (Message "User registered successfully")) \/
       fst (receive POST_signup a env faults d) =
         Ok (mkResponse 400 (Error "User already exists or invalid data"))).
Proof.
  split; [reflexivity | ].
  intros H.
  destruct (H (bodyless no_fields) (at_time 500) [] sample_db) as [E | E];
    discriminate E.
Qed.

(** C10 on the sample database: with a body, a second signup with alice's
    email, a signup without password and a signup while the store is down
    are all answered 400 with the same message. *)
Lemma signup_failures_are_all_400_witness :
  fst (arrive POST_signup (mkArrival true (login_as "a@x.com" "pw9"))
              (at_time 500) (mkSt sample_db [] [])) =
    Ok (mkResponse 400 (Error "User already exists or invalid data")) /\
  fst (arrive POST_signup
              (mkArrival true
                 (with_body (JStr "c@x.com") JUndefined JUndefined
                            JUndefined JUndefined ""))
              (at_time 500) (mkSt sample_db [] [])) =
    Ok (mkResponse 400 (Error "User already exists or invalid data")) /\
  fst (arrive POST_signup (mkArrival true (login_as "c@x.com" "pw3"))
              (at_time 500) (mkSt sample_db [true] [])) =
    Ok (mkResponse 400 (Error "User already exists or invalid data")).
Proof.
  split; [ | split ].
  - destruct (signup_failures_are_all_400
                (mkArrival true (login_as "a@x.com" "pw9"))
                (at_time 500) (mkSt sample_db [] []) eq_refl)
      as (_ & _ & Hduplicate & _ & _).
    apply Hduplicate. exists alice. split; [simpl; auto | reflexivity].
  - destruct (signup_failures_are_all_400
                (mkArrival true
                   (with_body (JStr "c@x.com") JUndefined JUndefined
                              JUndefined JUndefined ""))
                (at_time 500) (mkSt sample_db [] []) eq_refl)
      as (_ & _ & _ & Hpassword & _).
    apply Hpassword. simpl. discriminate.
  - destruct (signup_failures_are_all_400
                (mkArrival true (login_as "c@x.com" "pw3"))
                (at_time 500) (mkSt sample_db [true] []) eq_refl)
      as (_ & _ & _ & _ & Hfault).
    apply Hfault. reflexivity.
Defined.

(** ** The examples of the specification *)

(** signup("a@x.com","pw1") is answered 201; signup("a@x.com","pw2") is then
    answered 400. *)
Example signup_twice :
  fst (serve POST_signup (login_as "a@x.com" "pw1") (at_time 10) []
             empty_db) =
    Ok (mkResponse 201 (Message "User registered successfully")) /\
  fst (serve POST_signup (login_as "a@x.com" "pw2") (at_time 20) []
             (st_db (snd (serve POST_signup (login_as "a@x.com" "pw1")
                                (at_time 10) [] empty_db)))) =
    Ok (mkResponse 400 (Error "User already exists or invalid data")).
Proof. split; reflexivity. Qed.

(** create(email="a@x.com", userInput="I feel nauseous",
    adviceOutput="Try ginger tea") is answered 201 with
    title="I feel nauseous". *)
Example create_nauseous :
  fst (serve POST_api_chats
             (with_body (JStr "a@x.com") JUndefined (JStr "I feel nauseous")
                        (JStr "Try ginger tea") JUndefined "")
             (at_time 500) [] sample_db) =
    Ok (mkResponse 201
          (OneChat (mkChatRow 4 (Some (utf16 "I feel nauseous"))
                              "I feel nauseous" "Try ginger tea" 500 500))).
Proof. reflexivity. Qed.

(** A create whose [userInput] is a number and whose title is missing
    throws on [substring] and is answered 500; nothing is stored. *)
Example create_with_a_number_as_input :
  serve POST_api_chats
        (with_body (JStr "a@x.com") JUndefined (JNum 5)
                   (JStr "Try ginger tea") JUndefined "")
        (at_time 500) [] sample_db =
    (Ok (mkResponse 500 (Error "Server error")), mkSt sample_db [] []).
Proof. reflexivity. Qed.

(** An id in the path that is not a number makes the store refuse the
    statement: 500. *)
Example get_with_a_word_as_id :
  fst (serve GET_api_chats_id (with_query (JStr "a@x.com") "three")
             (at_time 500) [] sample_db) =
    Ok (mkResponse 500 (Error "Server error")).
Proof. reflexivity. Qed.

(** bob cannot read, change or delete alice's chat 3. *)
Example bob_on_the_chat_of_alice :
  fst (serve GET_api_chats_id (with_query (JStr "b@x.com") "3")
             (at_time 500) [] sample_db) =
    Ok (mkResponse 404 (Error "Chat not found")) /\
  serve PUT_api_chats_id
        (with_body (JStr "b@x.com") JUndefined JUndefined JUndefined
                   (JStr "mine") "3")
        (at_time 500) [] sample_db =
    (Ok (mkResponse 404 (Error "Chat not found")), mkSt sample_db [] []) /\
  serve DELETE_api_chats_id (with_query (JStr "b@x.com") "3")
        (at_time 500) [] sample_db =
    (Ok (mkResponse 404 (Error "Chat not found")), mkSt sample_db [] []).
Proof. repeat split; reflexivity. Qed.

(** A question of 51 code units whose 50th and 51st are the two halves of
    one character: the title is cut between them, and the half that is
    left is stored as U+FFFD; the input is stored whole. *)
Example create_cuts_a_pair_in_two :
  fst (serve POST_api_chats create_split (at_time 500) [] sample_db) =
    Ok (mkResponse 201
          (OneChat
             (mkChatRow 4
                (Some (utf16 "I have been feeling dizzy every morning for two w"
                       ++ [replacement] ++ utf16 "..."))
                split_question "Drink water" 500 500))).
Proof. reflexivity. Qed.

(** A question of 30 characters in Urdu script, 54 bytes in UTF-8, is at
    most 50 code units long: it is its own title, whole. *)
Example create_keeps_a_short_urdu_question_whole :
  length (firstn 30 urdu_question) = 30%nat /\
  fst (serve POST_api_chats
             (with_body (JStr "a@x.com") JUndefined
                        (JStr (firstn 30 urdu_question))
                        (JStr "Drink water") JUndefined "")
             (at_time 500) [] sample_db) =
    Ok (mkResponse 201
          (OneChat (mkChatRow 4 (Some (firstn 30 urdu_question))
                              (firstn 30 urdu_question) "Drink water"
                              500 500))).
Proof. split; reflexivity. Qed.

(** The id 0x3 in the path: a store that reads plain decimal only refuses
    the statement (500); a store that reads hexadecimal finds chat 3. *)
Example get_with_a_hexadecimal_id :
  fst (serve (PG := plain_decimal) GET_api_chats_id
             (with_query (JStr "a@x.com") "0x3") (at_time 500) [] sample_db) =
    Ok (mkResponse 500 (Error "Server error")) /\
  fst (serve (PG := reads_0x3) GET_api_chats_id
             (with_query (JStr "a@x.com") "0x3") (at_time 500) [] sample_db) =
    Ok (mkResponse 200 (OneChat (chat_row diet_chat))).
Proof. split; reflexivity. Qed.

(** Requests without a JSON body: login throws before its [try]; create is
    answered 500; generate reads an empty object and asks for
    [userInput]. *)
Example requests_without_a_body :
  (exists message,
     fst (receive POST_login (bodyless no_fields) (at_time 500) []
                  sample_db) = Throw (TypeError message)) /\
  receive POST_api_chats (bodyless no_fields) (at_time 500) [] sample_db =
    (Ok (mkResponse 500 (Error "Server error")), mkSt sample_db [] []) /\
  receive POST_api_generate (bodyless no_fields) (at_time 500) [] sample_db =
    (Ok (mkResponse 400 (Error "userInput is required")),
     mkSt sample_db [] []).
Proof. split; [eexists; reflexivity | split; reflexivity]. Qed.

(** ** The further properties on the sample database *)

(** X1 on the sample database. *)
Lemma reachable_databases_keep_the_schema_witness :
  NoDup (map u_id (users sample_db)) /\
  NoDup (map u_email (users sample_db)) /\
  NoDup (map c_id (chats sample_db)) /\
  (forall c, In c (chats sample_db) ->
     exists u, In u (users sample_db) /\ u_id u = c_user_id c /\
               u_email u <> "") /\
  (forall u, In u (users sample_db) -> u_id u <= users_id_seq sample_db) /\
  (forall c, In c (chats sample_db) -> c_id c <= chats_id_seq sample_db).
Proof.
  apply (reachable_databases_keep_the_schema sample_db).
  exact sample_db_reachable.
Defined.

(** X2 on the sample database: a create without a body is answered 500,
    one of the statuses of its route; a login without a body is answered
    by nobody. *)
Lemma every_route_answers_with_its_statuses_witness :
  (exists resp,
     fst (receive POST_api_chats (bodyless no_fields) (at_time 500) []
                  sample_db) = Ok resp /\
     In (status resp) (statuses POST_api_chats (at_time 500))) /\
  (exists message,
     receive POST_login (bodyless no_fields) (at_time 500) [] sample_db =
       (Throw (TypeError message), mkSt sample_db [] [])).
Proof.
  split.
  - destruct (every_route_answers_with_its_statuses
                POST_api_chats (bodyless no_fields) (at_time 500) []
                sample_db) as [Hanswered _].
    apply Hanswered. right. reflexivity.
  - destruct (every_route_answers_with_its_statuses
                POST_login (bodyless no_fields) (at_time 500) []
                sample_db) as [_ Hthrown].
    apply Hthrown; reflexivity.
Defined.

(** X3 on the sample database: a list that alice asks for. *)
Lemma read_routes_never_write_witness :
  st_db (snd (serve GET_api_chats (with_query (JStr "a@x.com") "")
                    (at_time 500) [] sample_db)) = sample_db.
Proof.
  apply (read_routes_never_write GET_api_chats
           (with_query (JStr "a@x.com") "") (at_time 500) [] sample_db).
  reflexivity.
Defined.

(** X4 on the sample database: a second signup with alice's email. *)
Lemma refused_requests_change_no_row_witness :
  users (st_db (snd (serve POST_signup (login_as "a@x.com" "pw9")
                           (at_time 500) [] sample_db))) =
    users sample_db /\
  chats (st_db (snd (serve POST_signup (login_as "a@x.com" "pw9")
                           (at_time 500) [] sample_db))) =
    chats sample_db.
Proof.
  apply (refused_requests_change_no_row POST_signup
           (login_as "a@x.com" "pw9") (at_time 500) [] sample_db
           (mkResponse 400 (Error "User already exists or invalid data"))).
  - reflexivity.
  - discriminate.
  - discriminate.
Defined.

(** X5 on the sample database: bob, on alice's chat 3. *)
Lemma no_account_writes_to_the_chat_of_another_witness :
  same_rows sample_db
    (st_db (snd (serve PUT_api_chats_id bob_on_chat_3 (at_time 500) []
                       sample_db))) /\
  same_rows sample_db
    (st_db (snd (serve DELETE_api_chats_id bob_on_chat_3 (at_time 500) []
                       sample_db))).
Proof.
  destruct (no_account_writes_to_the_chat_of_another
              bob_on_chat_3 (at_time 500) [] sample_db alice bob diet_chat)
    as [Hput Hdelete].
  - exact sample_db_reachable.
  - simpl. auto.
  - simpl. auto.
  - discriminate.
  - simpl. auto.
  - reflexivity.
  - reflexivity.
  - split.
    + apply Hput. reflexivity.
    + apply Hdelete. reflexivity.
Defined.


(** X7 on the sample database: alice creates a chat and reads it back. *)
Lemma created_chat_is_read_back_witness :
  exists row,
    OneChat long_row = OneChat row /\
    (params_id (with_query (JStr "a@x.com") "4") = id_text (r_id row) ->
     serve GET_api_chats_id (with_query (JStr "a@x.com") "4") (at_time 600)
           []
           (st_db (snd (serve POST_api_chats create_long (at_time 500) []
                              sample_db))) =
       (Ok (mkResponse 200 (OneChat row)),
        mkSt (st_db (snd (serve POST_api_chats create_long (at_time 500) []
                                sample_db))) [] [])) /\
    exists rows,
      serve GET_api_chats (with_query (JStr "a@x.com") "4") (at_time 600) []
            (st_db (snd (serve POST_api_chats create_long (at_time 500) []
                               sample_db))) =
        (Ok (mkResponse 200 (Chats rows)),
         mkSt (st_db (snd (serve POST_api_chats create_long (at_time 500) []
                                 sample_db))) [] []) /\
      In row rows.
Proof.
  apply (created_chat_is_read_back create_long (at_time 500) [] sample_db
           (mkResponse 201 (OneChat long_row))
           (snd (serve POST_api_chats create_long (at_time 500) [] sample_db))
           (with_query (JStr "a@x.com") "4") (at_time 600) []).
  - exact sample_db_reachable.
  - reflexivity.
  - reflexivity.
  - exact quiet_nil.
  - reflexivity.
Defined.

(** X8 on the sample database: alice changes the advice of chat 3 and reads
    it back. *)
Lemma updated_chat_is_read_back_witness :
  exists row,
    OneChat (mkChatRow 3 (Some (utf16 "Diet")) "What should I eat?"
                       "Eat lentils" 300 500) = OneChat row /\
    serve GET_api_chats_id (with_query (JStr "a@x.com") "3") (at_time 600) []
          (st_db (snd (serve PUT_api_chats_id update_advice (at_time 500) []
                             sample_db))) =
      (Ok (mkResponse 200 (OneChat row)),
       mkSt (st_db (snd (serve PUT_api_chats_id update_advice (at_time 500)
                               [] sample_db))) [] []).
Proof.
  apply (updated_chat_is_read_back update_advice (at_time 500) [] sample_db
           (mkResponse 200
              (OneChat (mkChatRow 3 (Some (utf16 "Diet")) "What should I eat?"
                                  "Eat lentils" 300 500)))
           (snd (serve PUT_api_chats_id update_advice (at_time 500) []
                       sample_db))
           (with_query (JStr "a@x.com") "3") (at_time 600) []).
  - exact sample_db_reachable.
  - reflexivity.
  - reflexivity.
  - exact quiet_nil.
  - reflexivity.
  - reflexivity.
Defined.

(** X9 on the sample database: alice deletes chat 3 and looks for it. *)
Lemma deleted_chat_is_gone_witness :
  serve GET_api_chats_id (with_query (JStr "a@x.com") "3") (at_time 600) []
        (st_db (snd (serve DELETE_api_chats_id
                           (with_query (JStr "a@x.com") "3") (at_time 500) []
                           sample_db))) =
    (Ok (mkResponse 404 (Error "Chat not found")),
     mkSt (st_db (snd (serve DELETE_api_chats_id
                             (with_query (JStr "a@x.com") "3") (at_time 500)
                             [] sample_db))) [] []) /\
  exists rows,
    serve GET_api_chats (with_query (JStr "a@x.com") "3") (at_time 600) []
          (st_db (snd (serve DELETE_api_chats_id
                             (with_query (JStr "a@x.com") "3") (at_time 500)
                             [] sample_db))) =
      (Ok (mkResponse 200 (Chats rows)),
       mkSt (st_db (snd (serve DELETE_api_chats_id
                               (with_query (JStr "a@x.com") "3")
                               (at_time 500) [] sample_db))) [] []) /\
    forall row, In row rows ->
      int4in (params_id (with_query (JStr "a@x.com") "3")) <>
      Some (r_id row).
Proof.
  apply (deleted_chat_is_gone (with_query (JStr "a@x.com") "3")
           (at_time 500) [] sample_db
           (mkResponse 200 (Message "Chat deleted successfully"))
           (snd (serve DELETE_api_chats_id (with_query (JStr "a@x.com") "3")
                       (at_time 500) [] sample_db))
           (with_query (JStr "a@x.com") "3") (at_time 600) []).
  - exact sample_db_reachable.
  - reflexivity.
  - reflexivity.
  - exact quiet_nil.
  - reflexivity.
  - reflexivity.
Defined.



(** X13 on a provider that answers with one candidate. *)
Lemma generate_answers_200_only_with_a_candidate_witness :
  exists s data n,
    env_gemini (at_time 500) = FetchReplies s (Ok data) /\
    fetch_ok s = true /\
    data_candidates data = Some n /\ n <> O /\
    Provider (mkGeminiData JUndefined (Some 1%nat)) = Provider data.
Proof.
  apply (generate_answers_200_only_with_a_candidate
           (ask "I feel nauseous") (at_time 500) (mkSt sample_db [] [])
           (mkResponse 200 (Provider (mkGeminiData JUndefined (Some 1%nat))))).
  - reflexivity.
  - reflexivity.
Defined.

(** X14 on a provider that refuses with 429. *)
Lemma generate_relays_the_failure_of_the_provider_witness :
  fst (post_api_generate (ask "I feel nauseous") gemini_refuses
                         (mkSt sample_db [] [])) =
    Ok (mkResponse 429
          (ErrorDetails (JStr "quota exceeded")
                        (mkGeminiData (JStr "quota exceeded") None))).
Proof.
  destruct (generate_relays_the_failure_of_the_provider
              (ask "I feel nauseous") gemini_refuses (mkSt sample_db [] [])
              "key" eq_refl eq_refl) as (Hrelay & _).
  - discriminate.
  - apply (Hrelay 429 (mkGeminiData (JStr "quota exceeded") None));
      reflexivity.
Defined.

(** X16 on the sample database: alice forgets her password field. *)
Lemma login_without_password_witness :
  serve POST_login
        (with_body (JStr "a@x.com") JUndefined JUndefined JUndefined
                   JUndefined "")
        (at_time 500) [] sample_db =
    (Ok (mkResponse 500 (Error "Server error")), mkSt sample_db [] []).
Proof.
  apply (login_without_password
           (with_body (JStr "a@x.com") JUndefined JUndefined JUndefined
                      JUndefined "")
           (at_time 500) [] sample_db alice).
  - exact sample_db_reachable.
  - exact quiet_nil.
  - simpl. auto.
  - reflexivity.
  - simpl. discriminate.
Defined.


(** X18 on the sample database: a list without email, and an update with
    a body but no email, the store down; an update without a body. *)
Lemma chat_routes_require_an_email_witness :
  (exists message,
     receive GET_api_chats (bodyless no_fields) (at_time 500) [true]
             sample_db =
       (Ok (mkResponse 400 (Error message)), mkSt sample_db [true] [])) /\
  (exists message,
     receive PUT_api_chats_id (mkArrival true no_fields) (at_time 500) [true]
             sample_db =
       (Ok (mkResponse 400 (Error message)), mkSt sample_db [true] [])) /\
  receive PUT_api_chats_id (bodyless no_fields) (at_time 500) [true]
          sample_db =
    (Ok (mkResponse 500 (Error "Server error")), mkSt sample_db [true] []).
Proof.
  split; [ | split ].
  - destruct (chat_routes_require_an_email GET_api_chats (bodyless no_fields)
                (at_time 500) [true] sample_db JUndefined eq_refl)
      as [Hrefused _].
    apply Hrefused; [reflexivity | discriminate].
  - destruct (chat_routes_require_an_email PUT_api_chats_id
                (mkArrival true no_fields) (at_time 500) [true] sample_db
                JUndefined eq_refl)
      as [Hrefused _].
    apply Hrefused; reflexivity.
  - destruct (chat_routes_require_an_email PUT_api_chats_id
                (bodyless no_fields) (at_time 500) [true] sample_db
                JUndefined eq_refl)
      as [_ Hbodyless].
    apply Hbodyless; reflexivity.
Defined.

(** X19 on the sample database: alice asks for her list, the store down. *)
Lemma an_unreachable_store_is_answered_500_witness :
  st_db (snd (serve GET_api_chats (with_query (JStr "a@x.com") "")
                    (at_time 500) [true] sample_db)) = sample_db /\
  (fst (serve GET_api_chats (with_query (JStr "a@x.com") "") (at_time 500)
              [true] sample_db) =
     Ok (mkResponse 500 (Error "Server error")) \/
   exists message,
     fst (serve GET_api_chats (with_query (JStr "a@x.com") "") (at_time 500)
                [true] sample_db) =
       Ok (mkResponse 400 (Error message))).
Proof.
  apply (an_unreachable_store_is_answered_500 GET_api_chats
           (with_query (JStr "a@x.com") "") (at_time 500) [true] sample_db).
  - discriminate.
  - discriminate.
  - reflexivity.
Defined.
